(** * Adaptive write-sync policy of rpi-imager: [SystemMemoryManager]

    A shallow embedding of [src/systemmemorymanager.cpp], with the
    properties of its total-memory cache, of its memory-tiered sync policy
    and of its platform probes.

    - Values of the C++ integer types are integers in [Z]; where the code's
      arithmetic can leave the range of its type the result is reduced
      explicitly, see [QInt64.wrap], [UInt64.wrap], [ULong.wrap] and [UInt32.wrap].
    - [QString] values are [string]s of 8-bit characters.
    - The singleton's mutable member, the calls it makes to the platform
      probes and the lines it sends to [qDebug] are threaded through a state
      monad; the operating system is an oracle that may answer each probe
      differently. *)

From Stdlib Require Import ZArith List String Ascii Bool Lia.
From Stdlib Require Import DecimalString DecimalPos.
Import ListNotations.

Open Scope string_scope.
Open Scope Z_scope.

(** ** Machine integers *)

Module QInt64.

Definition min_value : Z := - 2 ^ 63.
Definition max_value : Z := 2 ^ 63 - 1.

Definition in_range (z : Z) : Prop := min_value <= z <= max_value.

(** Two's-complement reduction of an integer to the signed 64-bit range;
    also the conversion from an unsigned 64-bit value. *)
Definition wrap (z : Z) : Z := (z + 2 ^ 63) mod 2 ^ 64 - 2 ^ 63.

Definition add (a b : Z) : Z := wrap (a + b).
Definition mul (a b : Z) : Z := wrap (a * b).

(** C++ [/] on integers: the quotient is truncated toward zero. *)
Definition div (a b : Z) : Z := Z.quot a b.

End QInt64.

Module UInt64.

(** Reduction to the range of a 64-bit unsigned type such as [DWORDLONG]. *)
Definition wrap (z : Z) : Z := z mod 2 ^ 64.

Definition add (a b : Z) : Z := wrap (a + b).
Definition mul (a b : Z) : Z := wrap (a * b).
Definition div (a b : Z) : Z := Z.quot a b.

End UInt64.

Module ULong.

(** [unsigned long], whose width depends on the build: 64 bits on an LP64
    build, 32 bits on a 32-bit one.  [bits] is that width. *)
Definition wrap (bits z : Z) : Z := z mod 2 ^ bits.

Definition add (bits a b : Z) : Z := wrap bits (a + b).
Definition mul (bits a b : Z) : Z := wrap bits (a * b).
Definition div (a b : Z) : Z := Z.quot a b.

End ULong.

Module UInt32.

(** Reduction to the range of a [natural_t] (an [unsigned int]). *)
Definition wrap (z : Z) : Z := z mod 2 ^ 32.

Definition add (a b : Z) : Z := wrap (a + b).

End UInt32.

(** ** The parts of Qt the code relies on *)

(** [qMax(a, b)] is [(a < b) ? b : a] and [qMin(a, b)] is [(a < b) ? a : b]. *)
Definition qMax (a b : Z) : Z := if a <? b then b else a.
Definition qMin (a b : Z) : Z := if a <? b then a else b.

Module QString.

(** Decimal rendering of an integer, as [QString::arg(qlonglong)] and
    [QString::number] produce it. *)
Definition number (z : Z) : string := NilZero.string_of_int (Z.to_int z).

(** [QString(fmt).arg(z)] for a format with the single place marker [%1],
    given as the text before and after the marker. *)
Definition arg1 (before after : string) (z : Z) : string :=
  before ++ number z ++ after.

(** [s.startsWith(p)]. *)
Definition startsWith (s p : string) : bool := String.prefix p s.

(** The characters matched by [\s] in a [QRegularExpression] without
    Unicode properties: space, tab, line feed, vertical tab, form feed
    and carriage return. *)
Definition isSpace (c : ascii) : bool :=
  let n := nat_of_ascii c in
  (Nat.eqb n 32 || (Nat.leb 9 n && Nat.leb n 13))%bool.

(** [s.split(QRegularExpression("\\s+"))]: the pieces of [s] between the
    maximal runs of white space, empty pieces kept.  [inRun] says that the
    previous character was white space, [piece] is the piece being read. *)
Fixpoint splitFrom (inRun : bool) (piece : string) (s : string) : list string :=
  match s with
  | EmptyString => [piece]
  | String c rest =>
      if isSpace c then
        if inRun then splitFrom true "" rest
        else piece :: splitFrom true "" rest
      else splitFrom false (piece ++ String c "") rest
  end.

Definition splitWhitespace (s : string) : list string := splitFrom false "" s.

(** Value of a decimal digit. *)
Definition digitValue (c : ascii) : option Z :=
  let n := nat_of_ascii c in
  if (Nat.leb 48 n && Nat.leb n 57)%bool then Some (Z.of_nat n - 48) else None.

(** Value of a non-empty run of decimal digits read after [acc]. *)
Fixpoint digitsFrom (acc : Z) (s : string) : option Z :=
  match s with
  | EmptyString => Some acc
  | String c rest =>
      match digitValue c with
      | Some d => digitsFrom (10 * acc + d) rest
      | None => None
      end
  end.

Definition digits (s : string) : option Z :=
  match s with
  | EmptyString => None
  | _ => digitsFrom 0 s
  end.

Fixpoint dropSpaces (s : string) : string :=
  match s with
  | String c rest => if isSpace c then dropSpaces rest else s
  | EmptyString => EmptyString
  end.

Fixpoint dropTrailingSpaces (s : string) : string :=
  match s with
  | EmptyString => EmptyString
  | String c rest =>
      match dropTrailingSpaces rest with
      | EmptyString => if isSpace c then EmptyString else String c EmptyString
      | rest' => String c rest'
      end
  end.

(** [s.toLongLong(&ok)] in base 10: surrounding white space is ignored,
    one sign is allowed, the rest must be decimal digits and the value
    must fit a [qlonglong].  [Some v] is [ok = true] with result [v];
    [None] is [ok = false] (the C++ result is then 0). *)
Definition toLongLong (s : string) : option Z :=
  let t := dropTrailingSpaces (dropSpaces s) in
  let signed :=
    match t with
    | String "-" rest => option_map Z.opp (digits rest)
    | String "+" rest => digits rest
    | _ => digits t
    end in
  match signed with
  | Some v =>
      if ((QInt64.min_value <=? v) && (v <=? QInt64.max_value))%bool
      then Some v else None
  | None => None
  end.

(** [s.toLongLong()] without the [ok] flag. *)
Definition toLongLongOrZero (s : string) : Z :=
  match toLongLong s with
  | Some v => v
  | None => 0
  end.

End QString.

(** ** Policy constants

  The header that declares them is not part of the sources at hand, so the
  policy is stated over any choice of the five named constants. *)

Record PolicyConstants : Type := {
MIN_SYNC_INTERVAL_BYTES : Z;
MAX_SYNC_INTERVAL_BYTES : Z;
DEFAULT_SYNC_INTERVAL_MS : Z;
LOW_MEMORY_THRESHOLD_MB : Z;
HIGH_MEMORY_THRESHOLD_MB : Z
}.

(** Modelled from the spec: the values of the constants declared in
  [systemmemorymanager.h], which is missing; these are the specification's
  example constants (thresholds 4096 MB and 16384 MB, bounds 16 MiB and
  256 MiB, default time interval 5000 ms). *)
Definition exampleConstants : PolicyConstants := {|
MIN_SYNC_INTERVAL_BYTES := 16 * 1024 * 1024;
MAX_SYNC_INTERVAL_BYTES := 256 * 1024 * 1024;
DEFAULT_SYNC_INTERVAL_MS := 5000;
LOW_MEMORY_THRESHOLD_MB := 4096;
HIGH_MEMORY_THRESHOLD_MB := 16384
|}.

(** Modelled from the spec: the initial value of the member
  [_cachedTotalMemoryMB], set in the missing header; the cache is created
  absent, and [getTotalMemoryMB] tests absence as [== -1]. *)
Definition CACHE_ABSENT : Z := -1.

(** ** The sync configuration *)

Record SyncConfiguration : Type := {
syncIntervalBytes : Z;
syncIntervalMs : Z;
memoryTier : string
}.

Section Policy.

Variable K : PolicyConstants.

(** The body of [calculateSyncConfiguration] once [totalMemMB] is known:
    the three-way tier selection, the conversion to bytes and the bounds. *)
Definition syncConfigurationFor (totalMemMB : Z) : SyncConfiguration :=
  let '(syncIntervalMB, ms, tier) :=
    if totalMemMB <? LOW_MEMORY_THRESHOLD_MB K then
      (qMax 16 (QInt64.div totalMemMB 64),
       3000,
       QString.arg1 "Low memory (" "MB)" totalMemMB)
    else if totalMemMB <? HIGH_MEMORY_THRESHOLD_MB K then
      (qMax 32 (QInt64.div totalMemMB 80),
       DEFAULT_SYNC_INTERVAL_MS K,
       QString.arg1 "Medium memory (" "MB)" totalMemMB)
    else
      (qMin 256 (qMax 64 (QInt64.div totalMemMB 64)),
       7000,
       QString.arg1 "High memory (" "MB)" totalMemMB) in
  let bytes := QInt64.mul (QInt64.mul syncIntervalMB 1024) 1024 in
  {| syncIntervalBytes :=
       qMax (MIN_SYNC_INTERVAL_BYTES K) (qMin (MAX_SYNC_INTERVAL_BYTES K) bytes);
     syncIntervalMs := ms;
     memoryTier := tier |}.

End Policy.

(** ** What the platform reports

    One build of the program has one of four platform back ends, chosen by
    the preprocessor.  Each reads the operating system through a few calls;
    [None] is a call that reports failure. *)

Inductive Platform : Type :=
| Windows   (* Q_OS_WIN *)
| Darwin    (* Q_OS_DARWIN *)
| Linux     (* Q_OS_LINUX *)
| Unknown.  (* none of them *)

Record MEMORYSTATUSEX : Type := {
  ullTotalPhys : Z;   (* DWORDLONG *)
  ullAvailPhys : Z    (* DWORDLONG *)
}.

Record vm_statistics64 : Type := {
  free_count : Z;      (* natural_t *)
  inactive_count : Z   (* natural_t *)
}.

(** [struct sysinfo] as the build declares it; [unsigned_long_bits] is the
    width that [unsigned long] has in that build (64 on LP64, 32 on a 32-bit
    Linux), which is the type the code's products are computed in. *)
Record sysinfo_t : Type := {
  unsigned_long_bits : Z;
  totalram : Z;    (* unsigned long *)
  freeram : Z;     (* unsigned long *)
  bufferram : Z;   (* unsigned long *)
  mem_unit : Z     (* unsigned int *)
}.

(** The answers of the operating system at one moment.  [proc_meminfo] is
    [None] when [/proc/meminfo] cannot be opened, and otherwise the lines
    that [QTextStream::readLine] returns before the null string. *)
Record System : Type := {
  GlobalMemoryStatusEx : option MEMORYSTATUSEX;
  sysctl_hw_memsize : option Z;
  host_page_size : option Z;
  host_statistics64 : option vm_statistics64;
  sysinfo : option sysinfo_t;
  proc_meminfo : option (list string)
}.

(** The [while] loop over [/proc/meminfo] in the total-memory probe: the
    first line that starts with [MemTotal:] decides; [break] and the end of
    the stream both lead to the final [return 0]. *)
Fixpoint scanMemTotal (lines : list string) : Z :=
  match lines with
  | [] => 0
  | line :: rest =>
      if QString.startsWith line "MemTotal:" then
        let parts := QString.splitWhitespace line in
        if (2 <=? List.length parts)%nat then
          match QString.toLongLong (nth 1 parts "") with
          | Some memKB => QInt64.div memKB 1024
          | None => 0
          end
        else 0
      else scanMemTotal rest
  end.

(** Method 2 of the Linux total-memory probe. *)
Definition meminfoTotalMemoryMB (meminfo : option (list string)) : Z :=
  match meminfo with
  | Some lines => scanMemTotal lines
  | None => 0
  end.

Definition getPlatformTotalMemoryMB (platform : Platform) (sys : System) : Z :=
  match platform with
  | Windows =>
      match GlobalMemoryStatusEx sys with
      | Some memStatus =>
          QInt64.wrap (UInt64.div (ullTotalPhys memStatus) (1024 * 1024))
      | None => 0
      end
  | Darwin =>
      match sysctl_hw_memsize sys with
      | Some memsize => QInt64.div memsize (1024 * 1024)
      | None => 0
      end
  | Linux =>
      match sysinfo sys with
      | Some info =>
          QInt64.wrap
            (ULong.div
               (ULong.mul (unsigned_long_bits info) (totalram info) (mem_unit info))
               (1024 * 1024))
      | None => meminfoTotalMemoryMB (proc_meminfo sys)
      end
  | Unknown => 0
  end.

(** The four counters of the available-memory scan of [/proc/meminfo]. *)
Record MeminfoCounters : Type := {
  memAvailableKB : Z;
  memFreeKB : Z;
  buffersKB : Z;
  cachedKB : Z
}.

(** [parts[1].toLongLong()] when the line has two parts; the variable keeps
    its value otherwise. *)
Definition secondFieldOr (old : Z) (line : string) : Z :=
  let parts := QString.splitWhitespace line in
  if (2 <=? List.length parts)%nat then QString.toLongLongOrZero (nth 1 parts "")
  else old.

Fixpoint scanAvailable (c : MeminfoCounters) (lines : list string) : MeminfoCounters :=
  match lines with
  | [] => c
  | line :: rest =>
      let c' :=
        if QString.startsWith line "MemAvailable:" then
          {| memAvailableKB := secondFieldOr (memAvailableKB c) line;
             memFreeKB := memFreeKB c;
             buffersKB := buffersKB c;
             cachedKB := cachedKB c |}
        else if QString.startsWith line "MemFree:" then
          {| memAvailableKB := memAvailableKB c;
             memFreeKB := secondFieldOr (memFreeKB c) line;
             buffersKB := buffersKB c;
             cachedKB := cachedKB c |}
        else if QString.startsWith line "Buffers:" then
          {| memAvailableKB := memAvailableKB c;
             memFreeKB := memFreeKB c;
             buffersKB := secondFieldOr (buffersKB c) line;
             cachedKB := cachedKB c |}
        else if QString.startsWith line "Cached:" then
          {| memAvailableKB := memAvailableKB c;
             memFreeKB := memFreeKB c;
             buffersKB := buffersKB c;
             cachedKB := secondFieldOr (cachedKB c) line |}
        else c in
      scanAvailable c' rest
  end.

(** Method 2 of the Linux available-memory probe. *)
Definition meminfoAvailableMemoryMB (meminfo : option (list string)) : Z :=
  match meminfo with
  | Some lines =>
      let c := scanAvailable
                 {| memAvailableKB := 0; memFreeKB := 0;
                    buffersKB := 0; cachedKB := 0 |} lines in
      if 0 <? memAvailableKB c then QInt64.div (memAvailableKB c) 1024
      else if 0 <? memFreeKB c then
        QInt64.div (QInt64.add (QInt64.add (memFreeKB c) (buffersKB c)) (cachedKB c)) 1024
      else 0
  | None => 0
  end.

Definition getPlatformAvailableMemoryMB (platform : Platform) (sys : System) : Z :=
  match platform with
  | Windows =>
      match GlobalMemoryStatusEx sys with
      | Some memStatus =>
          QInt64.wrap (UInt64.div (ullAvailPhys memStatus) (1024 * 1024))
      | None => 0
      end
  | Darwin =>
      match host_page_size sys, host_statistics64 sys with
      | Some page_size, Some vm_stat =>
          let available_pages :=
            UInt32.add (free_count vm_stat) (inactive_count vm_stat) in
          let available_bytes := QInt64.mul available_pages page_size in
          QInt64.div available_bytes (1024 * 1024)
      | _, _ => 0
      end
  | Linux =>
      match sysinfo sys with
      | Some info =>
          let available :=
            QInt64.wrap
              (ULong.mul (unsigned_long_bits info)
                 (ULong.add (unsigned_long_bits info) (freeram info) (bufferram info))
                 (mem_unit info)) in
          QInt64.div available (1024 * 1024)
      | None => meminfoAvailableMemoryMB (proc_meminfo sys)
      end
  | Unknown => 0
  end.

Definition getPlatformName (platform : Platform) : string :=
  match platform with
  | Windows => "Windows"
  | Darwin => "macOS"
  | Linux => "Linux"
  | Unknown => "Unknown"
  end.

(** ** The running process

    The singleton returned by [instance()] lives as long as the process and
    owns one mutable member, the cached total.  Next to it the state keeps
    the assignments made to that member and what the code does to the
    outside: how often each platform probe has been called, and the lines
    sent to [qDebug]. *)

Inductive DebugLine : Type :=
| CouldNotDetect
    (* "Warning: Could not detect system memory, assuming 4GB" *)
| DetectedTotal (totalMB : Z) (platformName : string)
    (* "Detected total system memory:" .. "MB on" .. *)
| AdaptiveSync (tier : string) (intervalMB : Z) (intervalMs : Z) (platformName : string).
    (* "Adaptive sync configuration:" .. *)

Record Process : Type := {
  _cachedTotalMemoryMB : Z;
  cacheStores : list Z;   (* the values assigned to the member, oldest first *)
  totalProbes : nat;
  availableProbes : nat;
  debugOutput : list DebugLine
}.

(** The process at start: nothing cached, nothing probed, nothing printed. *)
Definition processStart : Process := {|
  _cachedTotalMemoryMB := CACHE_ABSENT;
  cacheStores := [];
  totalProbes := 0;
  availableProbes := 0;
  debugOutput := []
|}.

(** Computations that read and change the process. *)
Definition M (A : Type) : Type := Process -> A * Process.

Definition ret {A : Type} (a : A) : M A := fun p => (a, p).

Definition bind {A B : Type} (m : M A) (k : A -> M B) : M B :=
  fun p => let (a, p') := m p in k a p'.

Notation "x <- m ;; k" := (bind m (fun x => k))
  (at level 61, m at next level, right associativity).
Notation "m ;; k" := (bind m (fun _ => k))
  (at level 61, right associativity).

Definition when (b : bool) (m : M unit) : M unit := if b then m else ret tt.

Definition readCache : M Z := fun p => (_cachedTotalMemoryMB p, p).

Definition writeCache (v : Z) : M unit := fun p =>
  (tt, {| _cachedTotalMemoryMB := v;
          cacheStores := (cacheStores p ++ [v])%list;
          totalProbes := totalProbes p;
          availableProbes := availableProbes p;
          debugOutput := debugOutput p |}).

Definition qDebug (line : DebugLine) : M unit := fun p =>
  (tt, {| _cachedTotalMemoryMB := _cachedTotalMemoryMB p;
          cacheStores := cacheStores p;
          totalProbes := totalProbes p;
          availableProbes := availableProbes p;
          debugOutput := (debugOutput p ++ [line])%list |}).

Section Manager.

(** The constants of the build, its platform, and the operating system: the
    answers it gives to the first, second, ... probe of the process. *)
Variable K : PolicyConstants.
Variable platform : Platform.
Variable os : nat -> System.

Definition probesSoFar (p : Process) : nat := (totalProbes p + availableProbes p)%nat.

(** A call of the member function [getPlatformTotalMemoryMB]. *)
Definition callPlatformTotalMemoryMB : M Z := fun p =>
  (getPlatformTotalMemoryMB platform (os (probesSoFar p)),
   {| _cachedTotalMemoryMB := _cachedTotalMemoryMB p;
      cacheStores := cacheStores p;
      totalProbes := S (totalProbes p);
      availableProbes := availableProbes p;
      debugOutput := debugOutput p |}).

(** A call of the member function [getPlatformAvailableMemoryMB]. *)
Definition callPlatformAvailableMemoryMB : M Z := fun p =>
  (getPlatformAvailableMemoryMB platform (os (probesSoFar p)),
   {| _cachedTotalMemoryMB := _cachedTotalMemoryMB p;
      cacheStores := cacheStores p;
      totalProbes := totalProbes p;
      availableProbes := S (availableProbes p);
      debugOutput := debugOutput p |}).

Definition getTotalMemoryMB : M Z :=
  cached <- readCache ;;
  when (cached =? -1)
    (detected <- callPlatformTotalMemoryMB ;;
     writeCache detected ;;
     when (detected <=? 0)
       (qDebug CouldNotDetect ;;
        writeCache 4096) ;;
     total <- readCache ;;
     qDebug (DetectedTotal total (getPlatformName platform))) ;;
  readCache.

Definition getAvailableMemoryMB : M Z := getTotalMemoryMB.

Definition calculateSyncConfiguration : M SyncConfiguration :=
  totalMemMB <- getTotalMemoryMB ;;
  let config := syncConfigurationFor K totalMemMB in
  qDebug (AdaptiveSync (memoryTier config)
            (QInt64.div (QInt64.div (syncIntervalBytes config) 1024) 1024)
            (syncIntervalMs config)
            (getPlatformName platform)) ;;
  ret config.

(** The public operations of the class, and what a caller gets back. *)
Inductive Call : Type :=
| GetTotalMemoryMB
| GetAvailableMemoryMB
| CalculateSyncConfiguration
| GetPlatformName.

Inductive Reply : Type :=
| Megabytes (mb : Z)
| Configuration (config : SyncConfiguration)
| Name (name : string).

Definition perform (c : Call) : M Reply :=
  match c with
  | GetTotalMemoryMB => mb <- getTotalMemoryMB ;; ret (Megabytes mb)
  | GetAvailableMemoryMB => mb <- getAvailableMemoryMB ;; ret (Megabytes mb)
  | CalculateSyncConfiguration =>
      config <- calculateSyncConfiguration ;; ret (Configuration config)
  | GetPlatformName => ret (Name (getPlatformName platform))
  end.

(** A caller making one call after the other. *)
Fixpoint performAll (calls : list Call) : M (list Reply) :=
  match calls with
  | [] => ret []
  | c :: rest =>
      r <- perform c ;;
      rs <- performAll rest ;;
      ret (r :: rs)
  end.

(** The process once the caller has made [calls]. *)
Definition processAfter (calls : list Call) (p : Process) : Process :=
  snd (performAll calls p).

End Manager.

(** What the first call of [getTotalMemoryMB] leaves in the cache when the
    platform probe answers [detected]. *)
Definition cachedFor (detected : Z) : Z :=
  if detected <=? 0 then 4096 else detected.

(** The assignments that the first call of [getTotalMemoryMB] makes to the
    member when the platform probe answers [detected]: the answer itself,
    and after it 4096 when the answer is not positive. *)
Definition storesFor (detected : Z) : list Z :=
  if detected <=? 0 then [detected; 4096] else [detected].

(** An operating system whose every call fails. *)
Definition nothingWorks : System := {|
  GlobalMemoryStatusEx := None;
  sysctl_hw_memsize := None;
  host_page_size := None;
  host_statistics64 := None;
  sysinfo := None;
  proc_meminfo := None
|}.

(** A Linux host where [sysinfo] fails and [/proc/meminfo] has the given lines. *)
Definition onlyMeminfo (lines : list string) : System := {|
  GlobalMemoryStatusEx := None;
  sysctl_hw_memsize := None;
  host_page_size := None;
  host_statistics64 := None;
  sysinfo := None;
  proc_meminfo := Some lines
|}.

(** A Linux host where [sysinfo] succeeds. *)
Definition withSysinfo (info : sysinfo_t) (meminfo : option (list string)) : System := {|
  GlobalMemoryStatusEx := None;
  sysctl_hw_memsize := None;
  host_page_size := None;
  host_statistics64 := None;
  sysinfo := Some info;
  proc_meminfo := meminfo
|}.

(** ** Shapes of text

    Used to say which lines of [/proc/meminfo] the scan understands. *)

Fixpoint everyChar (f : ascii -> bool) (s : string) : bool :=
  match s with
  | EmptyString => true
  | String c rest => (f c && everyChar f rest)%bool
  end.

(** A text without white space. *)
Definition isWord (s : string) : bool :=
  everyChar (fun c => negb (QString.isSpace c)) s.

(** A non-empty run of white space. *)
Definition isGap (s : string) : bool :=
  match s with
  | EmptyString => false
  | String _ _ => everyChar QString.isSpace s
  end.

(** A text that does not begin with white space. *)
Definition startsClean (s : string) : bool :=
  match s with
  | EmptyString => true
  | String c _ => negb (QString.isSpace c)
  end.

(** The [MemTotal:] record as the kernel prints it: the key, a gap, the
    number of kilobytes, a gap and the unit. *)
Definition memTotalRecord (gap1 : string) (memKB : Z) (gap2 unit : string) : string :=
  "MemTotal:" ++ gap1 ++ QString.number memKB ++ gap2 ++ unit.

(** A record of [/proc/meminfo] under any key. *)
Definition meminfoRecord (key gap1 : string) (kB : Z) (gap2 unit : string) : string :=
  key ++ gap1 ++ QString.number kB ++ gap2 ++ unit.

(** The lines that the available-memory scan reacts to. *)
Definition isAvailableKey (line : string) : bool :=
  (QString.startsWith line "MemAvailable:"
   || QString.startsWith line "MemFree:"
   || QString.startsWith line "Buffers:"
   || QString.startsWith line "Cached:")%bool.

(** How a record is laid out: the gap after the key, the gap after the
    number, and the unit. *)
Record RecordLayout : Type := {
  gapBefore : string;
  gapAfter : string;
  unitText : string
}.

Definition wellFormed (l : RecordLayout) : bool :=
  (isGap (gapBefore l) && isGap (gapAfter l) && isWord (unitText l))%bool.

Definition printRecord (key : string) (kB : Z) (l : RecordLayout) : string :=
  meminfoRecord key (gapBefore l) kB (gapAfter l) (unitText l).

(** ** What a caller sees and what is printed *)

(** The reply to a call in a process whose total is [total]. *)
Definition answer (K : PolicyConstants) (platform : Platform) (total : Z)
  (c : Call) : Reply :=
  match c with
  | GetTotalMemoryMB => Megabytes total
  | GetAvailableMemoryMB => Megabytes total
  | CalculateSyncConfiguration => Configuration (syncConfigurationFor K total)
  | GetPlatformName => Name (getPlatformName platform)
  end.

(** The calls that need the total. *)
Definition needsTotal (c : Call) : bool :=
  match c with
  | GetPlatformName => false
  | _ => true
  end.

Definition isCalculate (c : Call) : bool :=
  match c with
  | CalculateSyncConfiguration => true
  | _ => false
  end.

(** The lines printed by the call that fills the cache. *)
Definition detectionLines (platform : Platform) (detected : Z) : list DebugLine :=
  ((if detected <=? 0 then [CouldNotDetect] else [])
   ++ [DetectedTotal (cachedFor detected) (getPlatformName platform)])%list.

(** The line printed by each [calculateSyncConfiguration]. *)
Definition adaptiveSyncLine (K : PolicyConstants) (platform : Platform) (total : Z)
  : DebugLine :=
  let config := syncConfigurationFor K total in
  AdaptiveSync (memoryTier config)
    (QInt64.div (QInt64.div (syncIntervalBytes config) 1024) 1024)
    (syncIntervalMs config) (getPlatformName platform).

(** ** The storage selection step

    The functions and handlers of the wizard step that selects the storage
    device ([StorageSelectionStep], a QML component).  A row of the drive
    list model carries the values of its roles. *)

Record Drive : Type := {
  device : string;              (* deviceRole, 0x101 *)
  description : string;         (* descriptionRole, 0x102 *)
  size : string;                (* sizeRole, 0x103 *)
  isUsb : bool;                 (* isUsbRole, 0x104 *)
  isScsi : bool;                (* isScsiRole, 0x105 *)
  isReadOnly : bool;            (* isReadOnlyRole, 0x106 *)
  isSystem : bool;              (* isSystemRole, 0x107 *)
  mountpoints : list string     (* mountpointsRole, 0x108 *)
}.

(** What [model.data] gives for a row that does not exist: [undefined],
    which reads as [false] and as the empty text. *)
Definition noDrive : Drive := {|
  device := ""; description := ""; size := "";
  isUsb := false; isScsi := false; isReadOnly := false; isSystem := false;
  mountpoints := []
|}.

(** The three candidates of [selectDefaultDrive]; [-1] is none yet. *)
Record Candidates : Type := {
  sdIdx : Z;
  usbIdx : Z;
  otherIdx : Z
}.

(** The [for] loop of [selectDefaultDrive] from row [i] on. *)
Fixpoint scanDrives (i : Z) (rows : list Drive) (c : Candidates) : Candidates :=
  match rows with
  | [] => c
  | row :: rest =>
      let c' :=
        if isSystem row then c
        else if isReadOnly row then c
        else if (negb (isUsb row) && negb (isScsi row) && (sdIdx c =? -1))%bool then
          {| sdIdx := i; usbIdx := usbIdx c; otherIdx := otherIdx c |}
        else if (isUsb row && (usbIdx c =? -1))%bool then
          {| sdIdx := sdIdx c; usbIdx := i; otherIdx := otherIdx c |}
        else if otherIdx c =? -1 then
          {| sdIdx := sdIdx c; usbIdx := usbIdx c; otherIdx := i |}
        else c in
      scanDrives (i + 1) rest c'
  end.

(** The row that [selectDefaultDrive] settles on, [-1] for none. *)
Definition chosenDrive (rows : list Drive) : Z :=
  let c := scanDrives 0 rows {| sdIdx := -1; usbIdx := -1; otherIdx := -1 |} in
  if negb (sdIdx c =? -1) then sdIdx c
  else if negb (usbIdx c =? -1) then usbIdx c
  else otherIdx c.

(** The properties of the dialog [systemDriveConfirm] that the step sets,
    and how often it has been opened. *)
Record SystemDriveConfirm : Type := {
  driveName : string;
  confirmDevice : string;        (* systemDriveConfirm.device *)
  sizeStr : string;
  confirmMountpoints : list string;   (* systemDriveConfirm.mountpoints *)
  confirmOpened : list string    (* the devices at each open() *)
}.

Inductive FocusTarget : Type :=
| FocusDstlist
| FocusFilterSystemDrives.

(** The state of the step, with the calls it has made to the image writer
    ([setDst]), to [forceActiveFocus], to [confirmUnfilterPopup.open] and
    the emissions of [root.nextClicked].  [nextButtonEnabled] is the value of
    the property; [nextButtonBound] says that it is still bound to the
    wizard's [selectedStorageName] being non-empty, as it is declared, and
    has not been assigned yet. *)
Record StorageStep : Type := {
  currentIndex : Z;                 (* dstlist.currentIndex *)
  setDstCalls : list string;        (* imageWriter.setDst, oldest first *)
  selectedDeviceName : string;
  selectedStorageName : string;     (* wizardContainer.selectedStorageName *)
  nextButtonEnabled : bool;
  nextButtonBound : bool;
  filterChecked : bool;             (* filterSystemDrives.checked *)
  systemDriveConfirm : SystemDriveConfirm;
  unfilterOpened : nat;             (* confirmUnfilterPopup.open() *)
  focusCalls : list FocusTarget;
  nextCalls : nat                   (* root.nextClicked() *)
}.

Section StorageSelection.

(** [imageWriter.formatSize(parseFloat(size))], a function of the image
    writer. *)
Variable formatSize : string -> string.

(** The part of [selectDstItem], [selectDefaultDrive] and
    [systemDriveConfirm.onConfirmed] that makes a drive the destination. *)
Definition makeDestination (index : option Z) (dev name : string) (s : StorageStep)
  : StorageStep :=
  {| currentIndex := match index with Some i => i | None => currentIndex s end;
     setDstCalls := (setDstCalls s ++ [dev])%list;
     selectedDeviceName := name;
     selectedStorageName := name;
     nextButtonEnabled := true;
     nextButtonBound := false;
     filterChecked := filterChecked s;
     systemDriveConfirm := systemDriveConfirm s;
     unfilterOpened := unfilterOpened s;
     focusCalls := focusCalls s;
     nextCalls := nextCalls s |}.

Definition selectDstItem (dstitem : Drive) (s : StorageStep) : StorageStep :=
  if isReadOnly dstitem then s
  else if isSystem dstitem then
    {| currentIndex := currentIndex s;
       setDstCalls := setDstCalls s;
       selectedDeviceName := selectedDeviceName s;
       selectedStorageName := selectedStorageName s;
       nextButtonEnabled := nextButtonEnabled s;
       nextButtonBound := nextButtonBound s;
       filterChecked := filterChecked s;
       systemDriveConfirm :=
         {| driveName := description dstitem;
            confirmDevice := device dstitem;
            sizeStr := formatSize (size dstitem);
            confirmMountpoints := mountpoints dstitem;
            confirmOpened :=
              (confirmOpened (systemDriveConfirm s) ++ [device dstitem])%list |};
       unfilterOpened := unfilterOpened s;
       focusCalls := focusCalls s;
       nextCalls := nextCalls s |}
  else makeDestination None (device dstitem) (description dstitem) s.

Definition selectDefaultDrive (model : option (list Drive)) (s : StorageStep)
  : StorageStep :=
  match model with
  | None => s
  | Some [] => s
  | Some rows =>
      let chosen := chosenDrive rows in
      if chosen =? -1 then s
      else
        let row := nth (Z.to_nat chosen) rows noDrive in
        makeDestination (Some chosen) (device row) (description row) s
  end.

(** The function [selectDrive] of a delegate. *)
Definition selectDrive (dstitem : Drive) (s : StorageStep) : StorageStep :=
  if negb (isReadOnly dstitem) then selectDstItem dstitem s else s.

Definition setCurrentIndex (i : Z) (s : StorageStep) : StorageStep :=
  {| currentIndex := i;
     setDstCalls := setDstCalls s;
     selectedDeviceName := selectedDeviceName s;
     selectedStorageName := selectedStorageName s;
     nextButtonEnabled := nextButtonEnabled s;
     nextButtonBound := nextButtonBound s;
     filterChecked := filterChecked s;
     systemDriveConfirm := systemDriveConfirm s;
     unfilterOpened := unfilterOpened s;
     focusCalls := focusCalls s;
     nextCalls := nextCalls s |}.

Definition setFilterChecked (b : bool) (s : StorageStep) : StorageStep :=
  {| currentIndex := currentIndex s;
     setDstCalls := setDstCalls s;
     selectedDeviceName := selectedDeviceName s;
     selectedStorageName := selectedStorageName s;
     nextButtonEnabled := nextButtonEnabled s;
     nextButtonBound := nextButtonBound s;
     filterChecked := b;
     systemDriveConfirm := systemDriveConfirm s;
     unfilterOpened := unfilterOpened s;
     focusCalls := focusCalls s;
     nextCalls := nextCalls s |}.

Definition forceActiveFocus (t : FocusTarget) (s : StorageStep) : StorageStep :=
  {| currentIndex := currentIndex s;
     setDstCalls := setDstCalls s;
     selectedDeviceName := selectedDeviceName s;
     selectedStorageName := selectedStorageName s;
     nextButtonEnabled := nextButtonEnabled s;
     nextButtonBound := nextButtonBound s;
     filterChecked := filterChecked s;
     systemDriveConfirm := systemDriveConfirm s;
     unfilterOpened := unfilterOpened s;
     focusCalls := (focusCalls s ++ [t])%list;
     nextCalls := nextCalls s |}.

Definition openUnfilterPopup (s : StorageStep) : StorageStep :=
  {| currentIndex := currentIndex s;
     setDstCalls := setDstCalls s;
     selectedDeviceName := selectedDeviceName s;
     selectedStorageName := selectedStorageName s;
     nextButtonEnabled := nextButtonEnabled s;
     nextButtonBound := nextButtonBound s;
     filterChecked := filterChecked s;
     systemDriveConfirm := systemDriveConfirm s;
     unfilterOpened := S (unfilterOpened s);
     focusCalls := focusCalls s;
     nextCalls := nextCalls s |}.

(** A write to [wizardContainer.selectedStorageName] from outside the step;
    the binding of [nextButtonEnabled], while in place, follows it. *)
Definition setStorageName (name : string) (s : StorageStep) : StorageStep :=
  {| currentIndex := currentIndex s;
     setDstCalls := setDstCalls s;
     selectedDeviceName := selectedDeviceName s;
     selectedStorageName := name;
     nextButtonEnabled :=
       if nextButtonBound s then negb (name =? "")%string else nextButtonEnabled s;
     nextButtonBound := nextButtonBound s;
     filterChecked := filterChecked s;
     systemDriveConfirm := systemDriveConfirm s;
     unfilterOpened := unfilterOpened s;
     focusCalls := focusCalls s;
     nextCalls := nextCalls s |}.

(** [root.nextClicked()], which [next()] forwards. *)
Definition callNext (s : StorageStep) : StorageStep :=
  {| currentIndex := currentIndex s;
     setDstCalls := setDstCalls s;
     selectedDeviceName := selectedDeviceName s;
     selectedStorageName := selectedStorageName s;
     nextButtonEnabled := nextButtonEnabled s;
     nextButtonBound := nextButtonBound s;
     filterChecked := filterChecked s;
     systemDriveConfirm := systemDriveConfirm s;
     unfilterOpened := unfilterOpened s;
     focusCalls := focusCalls s;
     nextCalls := S (nextCalls s) |}.

(** The function [conditionalNext], which the list calls to advance after
    a selection by keyboard; [currentItem] is what
    [dstlist.itemAtIndex(dstlist.currentIndex)] returns. *)
Definition conditionalNext (currentItem : option Drive) (s : StorageStep)
  : StorageStep :=
  if 0 <=? currentIndex s then
    match currentItem with
    | Some item => if isSystem item then s else callNext s
    | None => callNext s
    end
  else callNext s.

(** What can happen to the step: the signals its handlers are attached to,
    the calls of its functions [next] and [conditionalNext], and a write to
    the wizard's [selectedStorageName] from elsewhere. *)
Inductive UiEvent : Type :=
| ItemClicked (dstitem : Drive) (index : Z)
    (* MouseArea.onClicked of a delegate *)
| ItemSelected (index count : Z) (item : option Drive)
    (* dstlist.onItemSelected *)
| CountChanged (model : option (list Drive))
    (* dstlist.onCountChanged, with the drive list of that moment *)
| SystemDriveConfirmed
| SystemDriveCancelled
| FilterToggled (checked disableWarnings : bool)
    (* filterSystemDrives.onToggled *)
| UnfilterConfirmed
| UnfilterCancelled
| UnfilterClosed
| NextRequested
    (* next() *)
| ConditionalNext (currentItem : option Drive)
    (* conditionalNext() *)
| StorageNameChanged (name : string).
    (* wizardContainer.selectedStorageName = name *)

Definition handle (e : UiEvent) (s : StorageStep) : StorageStep :=
  match e with
  | ItemClicked dstitem index =>
      if negb (isReadOnly dstitem)
      then selectDstItem dstitem (setCurrentIndex index s)
      else s
  | ItemSelected index count item =>
      match item with
      | Some dstitem =>
          if ((0 <=? index) && (index <? count))%bool then selectDrive dstitem s else s
      | None => s
      end
  | CountChanged model =>
      let count := match model with
                   | Some rows => Z.of_nat (List.length rows)
                   | None => 0
                   end in
      if ((0 <? count) && (currentIndex s =? -1))%bool
      then selectDefaultDrive model s else s
  | SystemDriveConfirmed =>
      callNext
        (setFilterChecked true
           (makeDestination None
              (confirmDevice (systemDriveConfirm s))
              (driveName (systemDriveConfirm s)) s))
  | SystemDriveCancelled => s
  | FilterToggled checked disableWarnings =>
      let s' := setFilterChecked checked s in
      if negb checked then
        if disableWarnings then forceActiveFocus FocusDstlist s'
        else openUnfilterPopup s'
      else s'
  | UnfilterConfirmed => s
  | UnfilterCancelled => setFilterChecked true s
  | UnfilterClosed =>
      if negb (filterChecked s) then forceActiveFocus FocusDstlist s
      else forceActiveFocus FocusFilterSystemDrives s
  | NextRequested => callNext s
  | ConditionalNext currentItem => conditionalNext currentItem s
  | StorageNameChanged name => setStorageName name s
  end.

(** The step after a sequence of events, the oldest first. *)
Definition handleAll (events : list UiEvent) (s : StorageStep) : StorageStep :=
  fold_left (fun st e => handle e st) events s.

End StorageSelection.

(** The drives that the events showed to the step. *)
Definition drivesOf (e : UiEvent) : list Drive :=
  match e with
  | ItemClicked dstitem _ => [dstitem]
  | ItemSelected _ _ (Some dstitem) => [dstitem]
  | CountChanged (Some rows) => rows
  | _ => []
  end.

(** A drive that may become the destination without a question. *)
Definition eligible (d : Drive) : bool := (negb (isSystem d) && negb (isReadOnly d))%bool.

Definition isSdCard (d : Drive) : bool := (negb (isUsb d) && negb (isScsi d))%bool.

(** The index of the first row that satisfies [f], counted from [i]. *)
Fixpoint firstIndexFrom (i : Z) (f : Drive -> bool) (rows : list Drive) : option Z :=
  match rows with
  | [] => None
  | row :: rest => if f row then Some i else firstIndexFrom (i + 1) f rest
  end.

(** The row that the priority rule names: the first SD card that is
    [eligible], else the first eligible USB device, else the first eligible
    drive. *)
Definition priorityPick (rows : list Drive) : option Z :=
  match firstIndexFrom 0 (fun d => eligible d && isSdCard d)%bool rows with
  | Some i => Some i
  | None =>
      match firstIndexFrom 0 (fun d => eligible d && isUsb d)%bool rows with
      | Some i => Some i
      | None => firstIndexFrom 0 eligible rows
      end
  end.

(** Among the drives [seen], one with the device name [dev] that is neither
    read-only nor a system drive. *)
Definition offeredFreely (seen : list Drive) (dev : string) : Prop :=
  exists d, In d seen /\ device d = dev
            /\ isReadOnly d = false /\ isSystem d = false.

(** Among the drives [seen], a system drive with the device name [dev] that
    is not read-only. *)
Definition offeredSystem (seen : list Drive) (dev : string) : Prop :=
  exists d, In d seen /\ device d = dev
            /\ isReadOnly d = false /\ isSystem d = true.

(** What the step keeps true of the destinations it has set, from a state
    [s0] on and having seen the drives [seen]: each one was already set in
    [s0], or was offered freely, or is the device the dialog held in [s0],
    or is a system drive for which the dialog has been opened; and the
    dialog holds the device it held in [s0] or such a system drive. *)
Definition destinationsSanctioned (s0 : StorageStep) (seen : list Drive)
  (s : StorageStep) : Prop :=
  (forall dev : string,
     In dev (setDstCalls s) ->
     In dev (setDstCalls s0)
     \/ offeredFreely seen dev
     \/ dev = confirmDevice (systemDriveConfirm s0)
     \/ (offeredSystem seen dev
         /\ In dev (confirmOpened (systemDriveConfirm s))))
  /\ (confirmDevice (systemDriveConfirm s) = confirmDevice (systemDriveConfirm s0)
      \/ (offeredSystem seen (confirmDevice (systemDriveConfirm s))
          /\ In (confirmDevice (systemDriveConfirm s))
               (confirmOpened (systemDriveConfirm s)))).

(** ** Network reachability on macOS

    [PlatformQuirks::hasNetworkConnectivity] and [isNetworkReady] of the
    macOS back end.  The system configuration framework either creates a
    reachability reference or not, and reports the flags of a reference or
    fails to; the state counts the references the code has been given and
    those it has released with [CFRelease]. *)

Record Reachability : Type := {
  SCNetworkReachabilityCreateWithName : bool;
  SCNetworkReachabilityGetFlags : option Z   (* SCNetworkReachabilityFlags, 32 bits *)
}.

Record References : Type := {
  created : nat;
  released : nat
}.

Section NetworkReachability.

(** The two flag masks of the framework's header. *)
Variable kSCNetworkReachabilityFlagsReachable : Z.
Variable kSCNetworkReachabilityFlagsConnectionRequired : Z.

Definition hasNetworkConnectivity (net : Reachability) (refs : References)
  : bool * References :=
  if negb (SCNetworkReachabilityCreateWithName net) then (false, refs)
  else
    let refs1 := {| created := S (created refs); released := released refs |} in
    let success := SCNetworkReachabilityGetFlags net in
    let refs2 := {| created := created refs1; released := S (released refs1) |} in
    match success with
    | None => (false, refs2)
    | Some flags =>
        let isReachable :=
          negb (Z.land flags kSCNetworkReachabilityFlagsReachable =? 0) in
        let needsConnection :=
          negb (Z.land flags kSCNetworkReachabilityFlagsConnectionRequired =? 0) in
        ((isReachable && negb needsConnection)%bool, refs2)
    end.

Definition isNetworkReady (net : Reachability) (refs : References)
  : bool * References :=
  hasNetworkConnectivity net refs.

End NetworkReachability.



Definition isSystemDriveConfirmed (e : UiEvent) : bool :=
  match e with
  | SystemDriveConfirmed => true
  | _ => false
  end.





(** * Properties *)

(** ** Arithmetic of the policy *)

Lemma qMax_max (a b : Z) : qMax a b = Z.max a b.
Proof. unfold qMax. destruct (Z.ltb_spec a b); lia. Qed.

Lemma qMin_min (a b : Z) : qMin a b = Z.min a b.
Proof. unfold qMin. destruct (Z.ltb_spec a b); lia. Qed.

Lemma wrap_in_range (z : Z) : QInt64.in_range z -> QInt64.wrap z = z.
Proof.
  unfold QInt64.in_range, QInt64.min_value, QInt64.max_value, QInt64.wrap.
  intros H. rewrite Z.mod_small; lia.
Qed.

(** Converting a megabyte count below 2^43 to bytes stays exact. *)
Lemma megabytes_to_bytes (mb : Z) :
  0 <= mb < 2 ^ 43 ->
  QInt64.mul (QInt64.mul mb 1024) 1024 = mb * (1024 * 1024).
Proof.
  intros H. unfold QInt64.mul.
  rewrite (wrap_in_range (mb * 1024)).
  - rewrite wrap_in_range; [ring|].
    unfold QInt64.in_range, QInt64.min_value, QInt64.max_value. lia.
  - unfold QInt64.in_range, QInt64.min_value, QInt64.max_value. lia.
Qed.

Lemma quot_below (T d : Z) :
  64 <= d -> T < 2 ^ 49 -> Z.quot T d < 2 ^ 43.
Proof.
  intros Hd HT.
  destruct (Z.lt_ge_cases T 0) as [Hneg|Hpos].
  - assert (Z.quot T d <= 0) by (apply Z.quot_le_upper_bound; lia). lia.
  - apply Z.quot_lt_upper_bound; lia.
Qed.

(** The clamp of the specification. *)
Lemma bounds_clamp (K : PolicyConstants) (T : Z) :
  syncIntervalBytes (syncConfigurationFor K T) =
  Z.max (MIN_SYNC_INTERVAL_BYTES K)
    (Z.min (MAX_SYNC_INTERVAL_BYTES K)
       (QInt64.mul (QInt64.mul
          (if T <? LOW_MEMORY_THRESHOLD_MB K then qMax 16 (QInt64.div T 64)
           else if T <? HIGH_MEMORY_THRESHOLD_MB K then qMax 32 (QInt64.div T 80)
           else qMin 256 (qMax 64 (QInt64.div T 64))) 1024) 1024)).
Proof.
  unfold syncConfigurationFor.
  destruct (T <? LOW_MEMORY_THRESHOLD_MB K);
    [|destruct (T <? HIGH_MEMORY_THRESHOLD_MB K)];
    cbn [syncIntervalBytes]; now rewrite qMax_max, qMin_min.
Qed.

(** ** The cache *)

Section CacheFacts.

Context (K : PolicyConstants) (platform : Platform) (os : nat -> System).

Lemma cachedFor_positive (detected : Z) : 0 < cachedFor detected.
Proof. unfold cachedFor. destruct (Z.leb_spec detected 0); lia. Qed.

Lemma getTotalMemoryMB_cached (p : Process) :
  _cachedTotalMemoryMB p <> -1 ->
  getTotalMemoryMB platform os p = (_cachedTotalMemoryMB p, p).
Proof.
  intros H. unfold getTotalMemoryMB, bind, readCache.
  apply Z.eqb_neq in H. rewrite H. reflexivity.
Qed.

Lemma getTotalMemoryMB_absent (p : Process) :
  _cachedTotalMemoryMB p = -1 ->
  let detected := getPlatformTotalMemoryMB platform (os (probesSoFar p)) in
  getTotalMemoryMB platform os p =
  (cachedFor detected,
   {| _cachedTotalMemoryMB := cachedFor detected;
      cacheStores := (cacheStores p ++ storesFor detected)%list;
      totalProbes := S (totalProbes p);
      availableProbes := availableProbes p;
      debugOutput :=
        (debugOutput p
         ++ (if detected <=? 0 then [CouldNotDetect] else [])
         ++ [DetectedTotal (cachedFor detected) (getPlatformName platform)])%list |}).
Proof.
  intros H detected. unfold getTotalMemoryMB, bind, readCache.
  rewrite H. cbn. fold detected. unfold cachedFor, storesFor.
  destruct (detected <=? 0); cbn.
  - now rewrite <- !app_assoc.
  - reflexivity.
Qed.

(** Whatever the state, a call leaves the returned value in the cache, and
    that value is not the marker of absence when it was freshly detected. *)
Lemma getTotalMemoryMB_fills (p : Process) :
  let r := getTotalMemoryMB platform os p in
  _cachedTotalMemoryMB (snd r) = fst r /\ fst r <> -1.
Proof.
  destruct (Z.eq_dec (_cachedTotalMemoryMB p) (-1)) as [H|H].
  - rewrite (getTotalMemoryMB_absent p H). cbn. split; [reflexivity|].
    pose proof (cachedFor_positive
      (getPlatformTotalMemoryMB platform (os (probesSoFar p)))). lia.
  - rewrite (getTotalMemoryMB_cached p H). cbn. auto.
Qed.

Lemma calculateSyncConfiguration_unfold (p : Process) :
  let r := getTotalMemoryMB platform os p in
  let config := syncConfigurationFor K (fst r) in
  calculateSyncConfiguration K platform os p =
  (config,
   {| _cachedTotalMemoryMB := _cachedTotalMemoryMB (snd r);
      cacheStores := cacheStores (snd r);
      totalProbes := totalProbes (snd r);
      availableProbes := availableProbes (snd r);
      debugOutput :=
        (debugOutput (snd r)
         ++ [AdaptiveSync (memoryTier config)
               (QInt64.div (QInt64.div (syncIntervalBytes config) 1024) 1024)
               (syncIntervalMs config) (getPlatformName platform)])%list |}).
Proof.
  cbn zeta. unfold calculateSyncConfiguration, bind.
  destruct (getTotalMemoryMB platform os p) as [t p']. reflexivity.
Qed.

Lemma calculateSyncConfiguration_result (p : Process) :
  fst (calculateSyncConfiguration K platform os p) =
  syncConfigurationFor K (fst (getTotalMemoryMB platform os p)).
Proof. now rewrite calculateSyncConfiguration_unfold. Qed.

(** A call that finds the cache filled changes neither the cache nor the
    number of probes. *)
Lemma perform_cached (c : Call) (p : Process) :
  _cachedTotalMemoryMB p <> -1 ->
  let p' := snd (perform K platform os c p) in
  _cachedTotalMemoryMB p' = _cachedTotalMemoryMB p
  /\ totalProbes p' = totalProbes p
  /\ availableProbes p' = availableProbes p.
Proof.
  intros H. destruct c; cbn [perform]; unfold getAvailableMemoryMB, bind.
  - rewrite (getTotalMemoryMB_cached p H). cbn. auto.
  - rewrite (getTotalMemoryMB_cached p H). cbn. auto.
  - rewrite calculateSyncConfiguration_unfold.
    rewrite (getTotalMemoryMB_cached p H). cbn. auto.
  - cbn. auto.
Qed.

Lemma performAll_cons (c : Call) (rest : list Call) (p : Process) :
  processAfter K platform os (c :: rest) p =
  processAfter K platform os rest (snd (perform K platform os c p)).
Proof.
  unfold processAfter. cbn [performAll]. unfold bind.
  destruct (perform K platform os c p) as [r p1]. cbn [snd].
  destruct (performAll K platform os rest p1) as [rs p2]. reflexivity.
Qed.

Lemma processAfter_cached (calls : list Call) (p : Process) :
  _cachedTotalMemoryMB p <> -1 ->
  let p' := processAfter K platform os calls p in
  _cachedTotalMemoryMB p' = _cachedTotalMemoryMB p
  /\ totalProbes p' = totalProbes p
  /\ availableProbes p' = availableProbes p.
Proof.
  revert p. induction calls as [|c rest IH]; intros p H.
  - cbn. auto.
  - cbn zeta. rewrite performAll_cons.
    destruct (perform_cached c p H) as (Hc & Ht & Ha).
    destruct (IH (snd (perform K platform os c p))) as (Hc' & Ht' & Ha').
    + now rewrite Hc.
    + cbn zeta in *. repeat split; congruence.
Qed.

End CacheFacts.

Section FromStart.

Context (K : PolicyConstants) (platform : Platform) (os : nat -> System).

(** A call keeps the process either untouched or settled on the value
    derived from the first answer of the platform. *)
Lemma perform_untouched_or_settled (c : Call) (p : Process) :
  (_cachedTotalMemoryMB p = -1 /\ totalProbes p = 0%nat /\ availableProbes p = 0%nat)
  \/ (_cachedTotalMemoryMB p = cachedFor (getPlatformTotalMemoryMB platform (os 0%nat))
      /\ totalProbes p = 1%nat /\ availableProbes p = 0%nat) ->
  let p' := snd (perform K platform os c p) in
  (_cachedTotalMemoryMB p' = -1 /\ totalProbes p' = 0%nat /\ availableProbes p' = 0%nat)
  \/ (_cachedTotalMemoryMB p' = cachedFor (getPlatformTotalMemoryMB platform (os 0%nat))
      /\ totalProbes p' = 1%nat /\ availableProbes p' = 0%nat).
Proof.
  intros [(Hc & Ht & Ha)|(Hc & Ht & Ha)].
  - assert (Hi : probesSoFar p = 0%nat) by (unfold probesSoFar; lia).
    destruct c; cbn [perform]; unfold getAvailableMemoryMB, bind;
      try rewrite calculateSyncConfiguration_unfold;
      try rewrite (getTotalMemoryMB_absent platform os p Hc);
      cbn; rewrite ?Hi, ?Ht; auto.
  - assert (Hn : _cachedTotalMemoryMB p <> -1).
    { rewrite Hc. pose proof (cachedFor_positive (getPlatformTotalMemoryMB platform (os 0%nat))). lia. }
    destruct (perform_cached K platform os c p Hn) as (Hc' & Ht' & Ha').
    cbn zeta. right. repeat split; congruence.
Qed.

Lemma processAfter_untouched_or_settled (calls : list Call) :
  let p := processAfter K platform os calls processStart in
  (_cachedTotalMemoryMB p = -1 /\ totalProbes p = 0%nat /\ availableProbes p = 0%nat)
  \/ (_cachedTotalMemoryMB p = cachedFor (getPlatformTotalMemoryMB platform (os 0%nat))
      /\ totalProbes p = 1%nat /\ availableProbes p = 0%nat).
Proof.
  cbn zeta.
  assert (G : forall p,
    (_cachedTotalMemoryMB p = -1 /\ totalProbes p = 0%nat /\ availableProbes p = 0%nat)
    \/ (_cachedTotalMemoryMB p = cachedFor (getPlatformTotalMemoryMB platform (os 0%nat))
        /\ totalProbes p = 1%nat /\ availableProbes p = 0%nat) ->
    let p' := processAfter K platform os calls p in
    (_cachedTotalMemoryMB p' = -1 /\ totalProbes p' = 0%nat /\ availableProbes p' = 0%nat)
    \/ (_cachedTotalMemoryMB p' = cachedFor (getPlatformTotalMemoryMB platform (os 0%nat))
        /\ totalProbes p' = 1%nat /\ availableProbes p' = 0%nat)).
  { induction calls as [|c rest IH]; intros p H.
    - exact H.
    - cbn zeta. rewrite performAll_cons. apply IH.
      now apply perform_untouched_or_settled. }
  apply G. left. cbn. auto.
Qed.

(** After any calls made since the start, [getTotalMemoryMB] answers with
    the value derived from the first answer of the platform and leaves the
    process with exactly one probe made. *)
Lemma getTotalMemoryMB_from_start (calls : list Call) :
  let r := getTotalMemoryMB platform os (processAfter K platform os calls processStart) in
  fst r = cachedFor (getPlatformTotalMemoryMB platform (os 0%nat))
  /\ _cachedTotalMemoryMB (snd r) = cachedFor (getPlatformTotalMemoryMB platform (os 0%nat))
  /\ totalProbes (snd r) = 1%nat.
Proof.
  cbn zeta.
  destruct (processAfter_untouched_or_settled calls) as [(Hc & Ht & Ha)|(Hc & Ht & Ha)].
  - rewrite (getTotalMemoryMB_absent platform os _ Hc). cbn.
    unfold probesSoFar. rewrite Ht, Ha. cbn. auto.
  - rewrite getTotalMemoryMB_cached.
    + cbn. auto.
    + rewrite Hc. pose proof (cachedFor_positive (getPlatformTotalMemoryMB platform (os 0%nat))). lia.
Qed.

End FromStart.

(** ** The tier table *)

(** C1. Let [T] be the cached total that [calculateSyncConfiguration] uses
    (the value [getTotalMemoryMB] hands it).  With ordered thresholds of at
    most 2^49 MB, so that the 64-bit product cannot wrap: below the low
    threshold the interval is [max(16, T / 64)] MB and the time 3000 ms; from
    the low threshold up to the high one it is [max(32, T / 80)] MB and
    [DEFAULT_SYNC_INTERVAL_MS]; from the high threshold on it is
    [min(256, max(64, T / 64))] MB and 7000 ms; the division truncates
    toward zero, and the megabytes are multiplied by 1024 * 1024 and clamped
    to the byte bounds.  With the example constants, 2048 MB gives
    33,554,432 bytes and 3000 ms, 8192 MB gives 106,954,752 bytes and
    5000 ms, 65536 MB gives 268,435,456 bytes and 7000 ms, and 512 MB gives
    16,777,216 bytes and 3000 ms. *)
Theorem calculateSyncConfiguration_tier_table :
  forall (K : PolicyConstants) (platform : Platform) (os : nat -> System)
         (p : Process) (T : Z) (config : SyncConfiguration),
    LOW_MEMORY_THRESHOLD_MB K <= HIGH_MEMORY_THRESHOLD_MB K ->
    HIGH_MEMORY_THRESHOLD_MB K <= 2 ^ 49 ->
    fst (getTotalMemoryMB platform os p) = T ->
    fst (calculateSyncConfiguration K platform os p) = config ->
    let clamp bytes :=
      Z.max (MIN_SYNC_INTERVAL_BYTES K) (Z.min (MAX_SYNC_INTERVAL_BYTES K) bytes) in
    (T < LOW_MEMORY_THRESHOLD_MB K ->
       syncIntervalBytes config = clamp (Z.max 16 (Z.quot T 64) * (1024 * 1024))
       /\ syncIntervalMs config = 3000)
    /\ (LOW_MEMORY_THRESHOLD_MB K <= T < HIGH_MEMORY_THRESHOLD_MB K ->
       syncIntervalBytes config = clamp (Z.max 32 (Z.quot T 80) * (1024 * 1024))
       /\ syncIntervalMs config = DEFAULT_SYNC_INTERVAL_MS K)
    /\ (HIGH_MEMORY_THRESHOLD_MB K <= T ->
       syncIntervalBytes config =
         clamp (Z.min 256 (Z.max 64 (Z.quot T 64)) * (1024 * 1024))
       /\ syncIntervalMs config = 7000)
    /\ (K = exampleConstants ->
        (T = 2048 -> syncIntervalBytes config = 33554432 /\ syncIntervalMs config = 3000)
        /\ (T = 8192 -> syncIntervalBytes config = 106954752 /\ syncIntervalMs config = 5000)
        /\ (T = 65536 -> syncIntervalBytes config = 268435456 /\ syncIntervalMs config = 7000)
        /\ (T = 512 -> syncIntervalBytes config = 16777216 /\ syncIntervalMs config = 3000)).
Proof.
  intros K platform os p T config Hord Hhigh HT Hc clamp.
  rewrite calculateSyncConfiguration_result, HT in Hc. subst config.
  split; [|split; [|split]].
  - intros H. apply Z.ltb_lt in H. split.
    + rewrite bounds_clamp, H. apply Z.ltb_lt in H.
      rewrite qMax_max, megabytes_to_bytes; [reflexivity|].
      pose proof (quot_below T 64). unfold QInt64.div. lia.
    + unfold syncConfigurationFor. now rewrite H.
  - intros [H1 H2]. apply Z.ltb_ge in H1. apply Z.ltb_lt in H2. split.
    + rewrite bounds_clamp, H1, H2. apply Z.ltb_lt in H2.
      rewrite qMax_max, megabytes_to_bytes; [reflexivity|].
      pose proof (quot_below T 80). unfold QInt64.div. lia.
    + unfold syncConfigurationFor. now rewrite H1, H2.
  - intros H.
    assert (H1 : (T <? LOW_MEMORY_THRESHOLD_MB K) = false) by (apply Z.ltb_ge; lia).
    assert (H2 : (T <? HIGH_MEMORY_THRESHOLD_MB K) = false) by (apply Z.ltb_ge; lia).
    split.
    + rewrite bounds_clamp, H1, H2.
      rewrite qMin_min, qMax_max, megabytes_to_bytes; [reflexivity|]. lia.
    + unfold syncConfigurationFor. now rewrite H1, H2.
  - intros ->. split; [|split; [|split]]; intros ->; split; reflexivity.
Qed.

(** C1, at a Mac with 2 GiB under the example constants. *)
Lemma calculateSyncConfiguration_tier_table_witness :
  let os := fun _ : nat =>
    {| GlobalMemoryStatusEx := None;
       sysctl_hw_memsize := Some (2048 * 1024 * 1024);
       host_page_size := None; host_statistics64 := None;
       sysinfo := None; proc_meminfo := None |} in
  let config := fst (calculateSyncConfiguration exampleConstants Darwin os processStart) in
  syncIntervalBytes config = 33554432 /\ syncIntervalMs config = 3000.
Proof.
  intros os config.
  refine (proj1 (proj2 (proj2 (proj2
    (calculateSyncConfiguration_tier_table exampleConstants Darwin os processStart
       2048 config _ _ _ _))) eq_refl) eq_refl).
  - cbn. lia.
  - cbn. lia.
  - reflexivity.
  - reflexivity.
Defined.

(** ** The byte bounds *)

(** C2. When the byte bounds are ordered, every configuration that
    [calculateSyncConfiguration] returns has its byte interval within
    them: for every total [T], in every state of the process, and so also
    from the start of a process on every platform and whatever the probe
    answers, detection failure included.  The function is total: it returns
    a configuration and has no error result. *)
Theorem syncIntervalBytes_within_bounds :
  forall K : PolicyConstants,
    MIN_SYNC_INTERVAL_BYTES K <= MAX_SYNC_INTERVAL_BYTES K ->
    (forall T : Z,
       MIN_SYNC_INTERVAL_BYTES K
         <= syncIntervalBytes (syncConfigurationFor K T)
         <= MAX_SYNC_INTERVAL_BYTES K)
    /\ (forall (platform : Platform) (os : nat -> System) (p : Process),
          exists (config : SyncConfiguration) (p' : Process),
            calculateSyncConfiguration K platform os p = (config, p')
            /\ MIN_SYNC_INTERVAL_BYTES K
                 <= syncIntervalBytes config
                 <= MAX_SYNC_INTERVAL_BYTES K).
Proof.
  intros K Hord.
  assert (G : forall T : Z,
    MIN_SYNC_INTERVAL_BYTES K
      <= syncIntervalBytes (syncConfigurationFor K T)
      <= MAX_SYNC_INTERVAL_BYTES K).
  { intros T. rewrite bounds_clamp. lia. }
  split; [exact G|].
  intros platform os p.
  rewrite calculateSyncConfiguration_unfold.
  eexists. eexists. split; [reflexivity|]. apply G.
Qed.

(** C2, at the example constants, for a process on an unknown platform. *)
Lemma syncIntervalBytes_within_bounds_witness :
  16777216
    <= syncIntervalBytes
         (fst (calculateSyncConfiguration exampleConstants Unknown
                 (fun _ => nothingWorks) processStart))
    <= 268435456.
Proof.
  assert (H : MIN_SYNC_INTERVAL_BYTES exampleConstants
              <= MAX_SYNC_INTERVAL_BYTES exampleConstants) by (cbn; lia).
  destruct (proj2 (syncIntervalBytes_within_bounds exampleConstants H)
              Unknown (fun _ => nothingWorks) processStart)
    as (config & p' & Heq & Hb).
  rewrite Heq. exact Hb.
Defined.

(** ** Tier boundaries *)

(** C4. With the low threshold below the high one, a total equal to the low
    threshold gets the Medium tier (its label, its time interval and its
    interval formula) and not the Low one, and a total equal to the high
    threshold gets the High tier and not the Medium one. *)
Theorem tier_boundaries_lower_inclusive :
  forall (K : PolicyConstants) (platform : Platform) (os : nat -> System)
         (p : Process) (T : Z) (config : SyncConfiguration),
    LOW_MEMORY_THRESHOLD_MB K < HIGH_MEMORY_THRESHOLD_MB K ->
    fst (getTotalMemoryMB platform os p) = T ->
    fst (calculateSyncConfiguration K platform os p) = config ->
    let bounded bytes :=
      qMax (MIN_SYNC_INTERVAL_BYTES K) (qMin (MAX_SYNC_INTERVAL_BYTES K) bytes) in
    (T = LOW_MEMORY_THRESHOLD_MB K ->
       memoryTier config = QString.arg1 "Medium memory (" "MB)" T
       /\ memoryTier config <> QString.arg1 "Low memory (" "MB)" T
       /\ syncIntervalMs config = DEFAULT_SYNC_INTERVAL_MS K
       /\ syncIntervalBytes config =
            bounded (QInt64.mul (QInt64.mul (qMax 32 (QInt64.div T 80)) 1024) 1024))
    /\ (T = HIGH_MEMORY_THRESHOLD_MB K ->
       memoryTier config = QString.arg1 "High memory (" "MB)" T
       /\ memoryTier config <> QString.arg1 "Medium memory (" "MB)" T
       /\ syncIntervalMs config = 7000
       /\ syncIntervalBytes config =
            bounded (QInt64.mul (QInt64.mul
                       (qMin 256 (qMax 64 (QInt64.div T 64))) 1024) 1024)).
Proof.
  intros K platform os p T config Hord HT Hc bounded.
  rewrite calculateSyncConfiguration_result, HT in Hc. subst config.
  split; intros HeqT.
  - assert (H1 : (T <? LOW_MEMORY_THRESHOLD_MB K) = false) by (apply Z.ltb_ge; lia).
    assert (H2 : (T <? HIGH_MEMORY_THRESHOLD_MB K) = true) by (apply Z.ltb_lt; lia).
    unfold syncConfigurationFor. rewrite H1, H2. cbn.
    repeat split. unfold QString.arg1. cbn. discriminate.
  - assert (H1 : (T <? LOW_MEMORY_THRESHOLD_MB K) = false) by (apply Z.ltb_ge; lia).
    assert (H2 : (T <? HIGH_MEMORY_THRESHOLD_MB K) = false) by (apply Z.ltb_ge; lia).
    unfold syncConfigurationFor. rewrite H1, H2. cbn.
    repeat split. unfold QString.arg1. cbn. discriminate.
Qed.

(** C4, at the example constants: 4096 MB is Medium and 16384 MB is High. *)
Lemma tier_boundaries_lower_inclusive_witness :
  let mac := fun memsize : Z => fun _ : nat =>
    {| GlobalMemoryStatusEx := None;
       sysctl_hw_memsize := Some memsize;
       host_page_size := None; host_statistics64 := None;
       sysinfo := None; proc_meminfo := None |} in
  memoryTier (fst (calculateSyncConfiguration exampleConstants Darwin
                     (mac (4096 * 1024 * 1024)) processStart))
    = "Medium memory (4096MB)"
  /\ memoryTier (fst (calculateSyncConfiguration exampleConstants Darwin
                        (mac (16384 * 1024 * 1024)) processStart))
    = "High memory (16384MB)".
Proof.
  intros mac. split.
  - refine (proj1 (proj1
      (tier_boundaries_lower_inclusive exampleConstants Darwin
         (mac (4096 * 1024 * 1024)) processStart 4096 _ _ _ eq_refl) eq_refl)).
    + cbn. lia.
    + reflexivity.
  - refine (proj1 (proj2
      (tier_boundaries_lower_inclusive exampleConstants Darwin
         (mac (16384 * 1024 * 1024)) processStart 16384 _ _ _ eq_refl) eq_refl)).
    + cbn. lia.
    + reflexivity.
Defined.

(** ** Monotonicity *)

(** C10. The byte interval is not monotone in the total: with the example
    constants, 4095 MB is in the Low tier and gets 63 MB = 66,060,288 bytes,
    while 4096 MB is in the Medium tier and gets 51 MB = 53,477,376 bytes. *)
Theorem syncIntervalBytes_not_monotone :
  let bytes := fun T : Z => syncIntervalBytes (syncConfigurationFor exampleConstants T) in
  let tier := fun T : Z => memoryTier (syncConfigurationFor exampleConstants T) in
  (exists T1 T2 : Z, T1 < T2 /\ bytes T1 > bytes T2)
  /\ tier 4095 = "Low memory (4095MB)"
  /\ Z.max 16 (Z.quot 4095 64) = 63
  /\ bytes 4095 = 63 * (1024 * 1024)
  /\ bytes 4095 = 66060288
  /\ tier 4096 = "Medium memory (4096MB)"
  /\ Z.max 32 (Z.quot 4096 80) = 51
  /\ bytes 4096 = 51 * (1024 * 1024)
  /\ bytes 4096 = 53477376
  /\ ~ (forall T1 T2 : Z, T1 <= T2 -> bytes T1 <= bytes T2).
Proof.
  intros bytes tier.
  assert (H95 : bytes 4095 = 66060288) by reflexivity.
  assert (H96 : bytes 4096 = 53477376) by reflexivity.
  split; [exists 4095, 4096; rewrite H95, H96; lia|].
  repeat (split; [reflexivity|]).
  intros Hmono. specialize (Hmono 4095 4096). rewrite H95, H96 in Hmono. lia.
Qed.

(** ** One probe per process *)

Lemma performAll_repeat_cached
  (K : PolicyConstants) (platform : Platform) (os : nat -> System)
  (n : nat) (p : Process) :
  _cachedTotalMemoryMB p <> -1 ->
  performAll K platform os (repeat GetTotalMemoryMB n) p =
  (repeat (Megabytes (_cachedTotalMemoryMB p)) n, p).
Proof.
  intros H. induction n as [|n IH].
  - reflexivity.
  - cbn [repeat performAll perform]. unfold bind at 1 2.
    rewrite (getTotalMemoryMB_cached platform os p H). cbn [ret].
    unfold bind. rewrite IH. reflexivity.
Qed.

(** ** Stability of the configuration *)

(** C8. In any state of the process, a call of
    [calculateSyncConfiguration] returns the configuration computed from
    the total it leaves in the cache; whatever calls follow, a later call
    returns the same configuration (byte interval, time interval and tier
    label alike) and the number of probes made stays what it was after the
    first. *)
Theorem calculateSyncConfiguration_repeatable :
  forall (K : PolicyConstants) (platform : Platform) (os : nat -> System)
         (p : Process) (calls : list Call),
    let r1 := calculateSyncConfiguration K platform os p in
    let r2 := calculateSyncConfiguration K platform os
                (processAfter K platform os calls (snd r1)) in
    fst r1 = syncConfigurationFor K (_cachedTotalMemoryMB (snd r1))
    /\ fst r2 = fst r1
    /\ syncIntervalBytes (fst r2) = syncIntervalBytes (fst r1)
    /\ syncIntervalMs (fst r2) = syncIntervalMs (fst r1)
    /\ memoryTier (fst r2) = memoryTier (fst r1)
    /\ totalProbes (snd r2) = totalProbes (snd r1)
    /\ _cachedTotalMemoryMB (snd r2) = _cachedTotalMemoryMB (snd r1).
Proof.
  intros K platform os p calls. cbn zeta.
  destruct (getTotalMemoryMB_fills platform os p) as [Hc Hn].
  set (p1 := snd (calculateSyncConfiguration K platform os p)).
  assert (Hp1 : _cachedTotalMemoryMB p1 = fst (getTotalMemoryMB platform os p)
                /\ totalProbes p1 = totalProbes (snd (getTotalMemoryMB platform os p))).
  { unfold p1. rewrite calculateSyncConfiguration_unfold. cbn. auto. }
  destruct Hp1 as [Hc1 Ht1].
  assert (Hn1 : _cachedTotalMemoryMB p1 <> -1) by now rewrite Hc1.
  destruct (processAfter_cached K platform os calls p1 Hn1) as (Hc2 & Ht2 & _).
  set (p2 := processAfter K platform os calls p1) in *.
  assert (Hn2 : _cachedTotalMemoryMB p2 <> -1) by now rewrite Hc2.
  assert (E1 : fst (calculateSyncConfiguration K platform os p)
               = syncConfigurationFor K (_cachedTotalMemoryMB p1)).
  { rewrite calculateSyncConfiguration_result. now rewrite Hc1. }
  assert (E2 : fst (calculateSyncConfiguration K platform os p2)
               = syncConfigurationFor K (_cachedTotalMemoryMB p1)).
  { rewrite calculateSyncConfiguration_result.
    rewrite (getTotalMemoryMB_cached platform os p2 Hn2). cbn. now rewrite Hc2. }
  assert (E3 : snd (calculateSyncConfiguration K platform os p2)
               = snd (calculateSyncConfiguration K platform os p2)) by reflexivity.
  rewrite calculateSyncConfiguration_unfold in E3 at 2.
  rewrite (getTotalMemoryMB_cached platform os p2 Hn2) in E3. cbn in E3.
  rewrite E1, E2, E3. cbn. repeat split; assumption.
Qed.

(** ** The available-memory query *)

Lemma getTotalMemoryMB_keeps_available
  (platform : Platform) (os : nat -> System) (p : Process) :
  availableProbes (snd (getTotalMemoryMB platform os p)) = availableProbes p.
Proof.
  destruct (Z.eq_dec (_cachedTotalMemoryMB p) (-1)) as [H|H].
  - now rewrite (getTotalMemoryMB_absent platform os p H).
  - now rewrite (getTotalMemoryMB_cached platform os p H).
Qed.

Lemma perform_keeps_available
  (K : PolicyConstants) (platform : Platform) (os : nat -> System)
  (c : Call) (p : Process) :
  availableProbes (snd (perform K platform os c p)) = availableProbes p.
Proof.
  pose proof (getTotalMemoryMB_keeps_available platform os p) as H.
  destruct c; cbn [perform]; unfold getAvailableMemoryMB, bind;
    try rewrite calculateSyncConfiguration_unfold;
    try (destruct (getTotalMemoryMB platform os p) as [t p']);
    cbn in *; auto.
Qed.

Lemma processAfter_keeps_available
  (K : PolicyConstants) (platform : Platform) (os : nat -> System)
  (calls : list Call) (p : Process) :
  availableProbes (processAfter K platform os calls p) = availableProbes p.
Proof.
  revert p. induction calls as [|c rest IH]; intros p.
  - reflexivity.
  - rewrite performAll_cons, IH. apply perform_keeps_available.
Qed.

(** C9. In every state of the process [getAvailableMemoryMB] does what
    [getTotalMemoryMB] does: the same value returned, the same state left.
    No call of a public operation ever invokes the platform's
    available-memory probe, and from the start of a process the value
    returned is the total derived from the first answer of the total-memory
    probe (4096 when detection fails). *)
Theorem getAvailableMemoryMB_returns_total :
  forall (K : PolicyConstants) (platform : Platform) (os : nat -> System),
    (forall p : Process,
       getAvailableMemoryMB platform os p = getTotalMemoryMB platform os p)
    /\ (forall (p : Process) (calls : list Call),
          availableProbes (processAfter K platform os calls p) = availableProbes p)
    /\ (forall p : Process,
          availableProbes (snd (getAvailableMemoryMB platform os p)) = availableProbes p)
    /\ (forall calls : list Call,
          let p := processAfter K platform os calls processStart in
          availableProbes p = 0%nat
          /\ fst (getAvailableMemoryMB platform os p)
             = cachedFor (getPlatformTotalMemoryMB platform (os 0%nat))).
Proof.
  intros K platform os.
  split; [reflexivity|].
  split; [intros p calls; apply processAfter_keeps_available|].
  split; [intros p; apply getTotalMemoryMB_keeps_available|].
  intros calls. cbn zeta. split.
  - now rewrite processAfter_keeps_available.
  - apply (getTotalMemoryMB_from_start K platform os calls).
Qed.

(** ** Detection failure *)



(** ** Splitting and parsing text *)

Lemma append_assoc (a b c : string) : ((a ++ b) ++ c = a ++ (b ++ c))%string.
Proof. induction a as [|x a IH]; cbn; [reflexivity | now rewrite IH]. Qed.

Lemma append_empty_r (a : string) : (a ++ "" = a)%string.
Proof. induction a as [|x a IH]; cbn; [reflexivity | now rewrite IH]. Qed.

(** Characters that are not white space extend the piece being read. *)
Lemma splitFrom_word (a piece rest : string) :
  isWord a = true ->
  QString.splitFrom false piece (a ++ rest) = QString.splitFrom false (piece ++ a) rest.
Proof.
  revert piece. induction a as [|c a IH]; intros piece H.
  - cbn. now rewrite append_empty_r.
  - cbn in H. apply andb_true_iff in H. destruct H as [Hc Ha].
    apply negb_true_iff in Hc.
    cbn [append QString.splitFrom]. rewrite Hc.
    rewrite (IH _ Ha), append_assoc. reflexivity.
Qed.

(** A run of white space is skipped as a whole. *)
Lemma splitFrom_run (ws rest : string) :
  everyChar QString.isSpace ws = true ->
  QString.splitFrom true "" (ws ++ rest) = QString.splitFrom true "" rest.
Proof.
  induction ws as [|c ws IH]; intros H.
  - reflexivity.
  - cbn in H. apply andb_true_iff in H. destruct H as [Hc Hws].
    cbn [append QString.splitFrom]. rewrite Hc. auto.
Qed.

Lemma splitFrom_after_run (b : string) :
  startsClean b = true ->
  QString.splitFrom true "" b = QString.splitWhitespace b.
Proof.
  destruct b as [|c b]; intros H.
  - reflexivity.
  - cbn in H. apply negb_true_iff in H.
    unfold QString.splitWhitespace. cbn [QString.splitFrom]. now rewrite H.
Qed.

(** A text without white space is one piece. *)
Lemma splitWhitespace_word (a : string) :
  isWord a = true -> QString.splitWhitespace a = [a].
Proof.
  intros H. unfold QString.splitWhitespace.
  rewrite <- (append_empty_r a) at 1.
  now rewrite (splitFrom_word a "" "" H).
Qed.

(** A word, a gap, and what follows: the word is the first piece, and the
    rest is split on its own. *)
Lemma splitWhitespace_word_gap (a gap b : string) :
  isWord a = true -> isGap gap = true -> startsClean b = true ->
  QString.splitWhitespace (a ++ gap ++ b) = a :: QString.splitWhitespace b.
Proof.
  intros Ha Hg Hb. unfold QString.splitWhitespace at 1.
  rewrite (splitFrom_word a "" _ Ha). cbn [append].
  destruct gap as [|c ws]; [discriminate|].
  cbn in Hg. apply andb_true_iff in Hg. destruct Hg as [Hc Hws].
  cbn [append QString.splitFrom]. rewrite Hc.
  rewrite (splitFrom_run ws b Hws), (splitFrom_after_run b Hb). reflexivity.
Qed.

(** Trimming leaves a text without white space as it is. *)
Lemma dropSpaces_word (a : string) :
  isWord a = true -> QString.dropSpaces a = a.
Proof.
  destruct a as [|c a]; intros H; [reflexivity|].
  cbn in H. apply andb_true_iff in H. destruct H as [Hc _].
  apply negb_true_iff in Hc. cbn. now rewrite Hc.
Qed.

Lemma dropTrailingSpaces_word (a : string) :
  isWord a = true -> QString.dropTrailingSpaces a = a.
Proof.
  induction a as [|c a IH]; intros H; [reflexivity|].
  cbn in H. apply andb_true_iff in H. destruct H as [Hc Ha].
  apply negb_true_iff in Hc. cbn. rewrite (IH Ha), Hc.
  now destruct a.
Qed.

(** ** Printing and reading numbers *)

Lemma digitsFrom_uint_acc (d : Decimal.uint) (acc : positive) :
  QString.digitsFrom (Zpos acc) (NilEmpty.string_of_uint d)
  = Some (Zpos (Pos.of_uint_acc d acc)).
Proof.
  revert acc. induction d; intros acc;
    cbn [NilEmpty.string_of_uint QString.digitsFrom Pos.of_uint_acc];
    [reflexivity | ..];
    match goal with
    | |- context [QString.digitValue ?c] =>
        let v := eval vm_compute in (QString.digitValue c) in
        change (QString.digitValue c) with v
    end;
    rewrite <- IHd; f_equal; lia.
Qed.

Lemma digitsFrom_uint (d : Decimal.uint) :
  QString.digitsFrom 0 (NilEmpty.string_of_uint d) = Some (Z.of_N (Pos.of_uint d)).
Proof.
  induction d;
    cbn [NilEmpty.string_of_uint QString.digitsFrom Pos.of_uint Z.of_N];
    [reflexivity | exact IHd | ..];
    match goal with
    | |- context [QString.digitValue ?c] =>
        let v := eval vm_compute in (QString.digitValue c) in
        change (QString.digitValue c) with v
    end;
    rewrite <- digitsFrom_uint_acc; reflexivity.
Qed.

(** The digits of a positive number are a word that starts with a digit. *)
Lemma string_of_uint_shape (d : Decimal.uint) :
  isWord (NilEmpty.string_of_uint d) = true
  /\ (d <> Decimal.Nil ->
      exists c rest, NilEmpty.string_of_uint d = String c rest
                     /\ c <> "-"%char /\ c <> "+"%char).
Proof.
  split.
  - induction d; cbn [NilEmpty.string_of_uint]; [reflexivity | ..];
      unfold isWord; cbn [everyChar]; apply andb_true_iff; split;
      solve [reflexivity | exact IHd].
  - intros Hd. destruct d; [congruence | ..]; cbn [NilEmpty.string_of_uint];
      eexists; eexists; (split; [reflexivity|]); split; discriminate.
Qed.

Lemma number_positive (p : positive) :
  QString.number (Zpos p) = NilEmpty.string_of_uint (Pos.to_uint p).
Proof.
  unfold QString.number. cbn [Z.to_int NilZero.string_of_int].
  pose proof (DecimalPos.Unsigned.to_uint_nonnil p) as Hn.
  unfold NilZero.string_of_uint. now destruct (Pos.to_uint p).
Qed.

Lemma number_negative (p : positive) :
  QString.number (Zneg p) = String "-" (NilEmpty.string_of_uint (Pos.to_uint p)).
Proof.
  unfold QString.number. cbn [Z.to_int NilZero.string_of_int].
  pose proof (DecimalPos.Unsigned.to_uint_nonnil p) as Hn.
  unfold NilZero.string_of_uint. now destruct (Pos.to_uint p).
Qed.

Lemma number_is_word (z : Z) : isWord (QString.number z) = true.
Proof.
  destruct z as [|p|p]; [reflexivity | |].
  - rewrite number_positive. apply string_of_uint_shape.
  - rewrite number_negative. unfold isWord. cbn [everyChar].
    apply andb_true_iff. split; [reflexivity|]. apply string_of_uint_shape.
Qed.

Lemma number_starts_clean (z : Z) (rest : string) :
  startsClean (QString.number z ++ rest) = true.
Proof.
  pose proof (number_is_word z) as Hw.
  destruct z as [|p|p]; [reflexivity | |].
  - rewrite number_positive in *.
    destruct (proj2 (string_of_uint_shape (Pos.to_uint p))
                (DecimalPos.Unsigned.to_uint_nonnil p)) as (c & tl & E & _).
    rewrite E in *. cbn in Hw |- *. now apply andb_true_iff in Hw.
  - rewrite number_negative. reflexivity.
Qed.

Lemma digits_of_positive (p : positive) :
  QString.digits (NilEmpty.string_of_uint (Pos.to_uint p)) = Some (Zpos p).
Proof.
  destruct (proj2 (string_of_uint_shape (Pos.to_uint p))
              (DecimalPos.Unsigned.to_uint_nonnil p)) as (c & tl & E & _).
  unfold QString.digits. rewrite E. rewrite <- E.
  rewrite digitsFrom_uint, DecimalPos.Unsigned.of_to. reflexivity.
Qed.

(** Reading back a printed 64-bit number gives the number. *)
Lemma toLongLong_number (z : Z) :
  QInt64.in_range z -> QString.toLongLong (QString.number z) = Some z.
Proof.
  intros Hz. unfold QString.toLongLong.
  rewrite (dropSpaces_word _ (number_is_word z)).
  rewrite (dropTrailingSpaces_word _ (number_is_word z)).
  assert (Hr : ((QInt64.min_value <=? z) && (z <=? QInt64.max_value))%bool = true).
  { unfold QInt64.in_range in Hz. apply andb_true_iff.
    split; apply Z.leb_le; lia. }
  destruct z as [|p|p].
  - reflexivity.
  - rewrite number_positive.
    destruct (proj2 (string_of_uint_shape (Pos.to_uint p))
                (DecimalPos.Unsigned.to_uint_nonnil p)) as (c & tl & E & Hm & Hp).
    assert (Hd : match NilEmpty.string_of_uint (Pos.to_uint p) with
                 | String "-" rest => option_map Z.opp (QString.digits rest)
                 | String "+" rest => QString.digits rest
                 | _ => QString.digits (NilEmpty.string_of_uint (Pos.to_uint p))
                 end = Some (Zpos p)).
    { rewrite <- (digits_of_positive p). rewrite E.
      destruct (ascii_dec c "-") as [->|]; [congruence|].
      destruct (ascii_dec c "+") as [->|]; [congruence|].
      destruct c as [[|] [|] [|] [|] [|] [|] [|] [|]]; congruence. }
    rewrite Hd, Hr. reflexivity.
  - rewrite number_negative, digits_of_positive. cbn [option_map Z.opp].
    rewrite Hr. reflexivity.
Qed.

(** ** The text fallback of the Linux probe *)

(** The loop stops at the first line that starts with [MemTotal:]. *)
Lemma scanMemTotal_first_record (lines : list string) :
  scanMemTotal lines =
  match find (fun line => QString.startsWith line "MemTotal:") lines with
  | Some line =>
      match QString.splitWhitespace line with
      | _ :: field :: _ =>
          match QString.toLongLong field with
          | Some memKB => Z.quot memKB 1024
          | None => 0
          end
      | _ => 0
      end
  | None => 0
  end.
Proof.
  induction lines as [|line rest IH].
  - reflexivity.
  - cbn [scanMemTotal find].
    destruct (QString.startsWith line "MemTotal:"); [|exact IH].
    destruct (QString.splitWhitespace line) as [|key [|field more]]; reflexivity.
Qed.

Lemma word_starts_clean (a : string) : isWord a = true -> startsClean a = true.
Proof.
  destruct a as [|c a]; [reflexivity|].
  cbn. intros H. now apply andb_true_iff in H.
Qed.

Lemma startsWith_append (p rest : string) :
  QString.startsWith (p ++ rest) p = true.
Proof.
  unfold QString.startsWith. induction p as [|c p IH]; cbn.
  - now destruct rest.
  - destruct (ascii_dec c c); [exact IH | congruence].
Qed.

(** The pieces of a record as the kernel prints it. *)
Lemma splitWhitespace_memTotalRecord (gap1 : string) (memKB : Z) (gap2 unit : string) :
  isGap gap1 = true -> isGap gap2 = true -> isWord unit = true ->
  QString.splitWhitespace (memTotalRecord gap1 memKB gap2 unit)
  = ["MemTotal:"; QString.number memKB; unit].
Proof.
  intros H1 H2 Hu. unfold memTotalRecord.
  rewrite (splitWhitespace_word_gap "MemTotal:" gap1 _ eq_refl H1
             (number_starts_clean memKB _)).
  rewrite (splitWhitespace_word_gap (QString.number memKB) gap2 unit
             (number_is_word memKB) H2 (word_starts_clean unit Hu)).
  now rewrite (splitWhitespace_word unit Hu).
Qed.

(** X1. On a text whose first [MemTotal:] line is a record as the kernel
    prints it (the key, white space, a number of kilobytes that fits 64 bits,
    white space, a unit), whatever lines come before and after, the fallback
    of the Linux total-memory probe returns that number divided by 1024. *)
Lemma meminfo_fallback_reads_record
  (before after : list string) (gap1 : string) (memKB : Z) (gap2 unit : string) :
  Forall (fun line => QString.startsWith line "MemTotal:" = false) before ->
  isGap gap1 = true -> isGap gap2 = true -> isWord unit = true ->
  QInt64.in_range memKB ->
  getPlatformTotalMemoryMB Linux
    (onlyMeminfo (before ++ memTotalRecord gap1 memKB gap2 unit :: after)%list)
  = Z.quot memKB 1024.
Proof.
  intros Hb H1 H2 Hu Hr.
  change (scanMemTotal (before ++ memTotalRecord gap1 memKB gap2 unit :: after)%list
          = Z.quot memKB 1024).
  induction Hb as [|line before Hline _ IH].
  - cbn [app scanMemTotal].
    unfold memTotalRecord at 1. rewrite startsWith_append.
    rewrite (splitWhitespace_memTotalRecord gap1 memKB gap2 unit H1 H2 Hu).
    cbn [List.length Nat.leb nth].
    now rewrite (toLongLong_number memKB Hr).
  - cbn [app scanMemTotal]. now rewrite Hline.
Qed.

(** C7. On Linux, when [sysinfo] fails, the total-memory probe reads
    [/proc/meminfo]: it takes the first line that starts with [MemTotal:],
    splits it at runs of white space and parses the second part as an
    integer; when that succeeds it returns the kilobytes divided by 1024,
    truncated toward zero.  It returns 0 when the file cannot be opened,
    when no line starts with [MemTotal:], when that line has fewer than two
    parts, and when the second part is not an integer. *)
Theorem meminfo_fallback_total_memory :
  forall sys : System,
    sysinfo sys = None ->
    let result := getPlatformTotalMemoryMB Linux sys in
    (proc_meminfo sys = None -> result = 0)
    /\ (forall lines : list string,
          proc_meminfo sys = Some lines ->
          let record := find (fun line => QString.startsWith line "MemTotal:") lines in
          (record = None -> result = 0)
          /\ (forall line : string,
                record = Some line ->
                let parts := QString.splitWhitespace line in
                ((List.length parts < 2)%nat -> result = 0)
                /\ (forall field : string,
                      nth_error parts 1 = Some field ->
                      (QString.toLongLong field = None -> result = 0)
                      /\ (forall memKB : Z,
                            QString.toLongLong field = Some memKB ->
                            result = Z.quot memKB 1024
                            /\ QInt64.in_range result)))).
Proof.
  intros sys Hsys result.
  assert (E : result = meminfoTotalMemoryMB (proc_meminfo sys)).
  { unfold result. cbn. now rewrite Hsys. }
  split.
  { intros Hnone. rewrite E, Hnone. reflexivity. }
  intros lines Hlines record.
  assert (E' : result = scanMemTotal lines).
  { rewrite E, Hlines. reflexivity. }
  rewrite scanMemTotal_first_record in E'. fold record in E'.
  split.
  { intros Hr. now rewrite Hr in E'. }
  intros line Hr parts. rewrite Hr in E'. fold parts in E'.
  split.
  { intros Hshort. destruct parts as [|key [|field more]]; cbn in Hshort; try lia; exact E'. }
  intros field Hfield.
  destruct parts as [|key [|field' more]]; try discriminate.
  cbn in Hfield. injection Hfield as ->.
  split.
  { intros Hparse. now rewrite Hparse in E'. }
  intros memKB Hparse. rewrite Hparse in E'. split; [exact E'|].
  rewrite E'. unfold QString.toLongLong in Hparse.
  destruct (match QString.dropTrailingSpaces (QString.dropSpaces field) with
            | String "-" rest => option_map Z.opp (QString.digits rest)
            | String "+" rest => QString.digits rest
            | _ => QString.digits (QString.dropTrailingSpaces (QString.dropSpaces field))
            end) as [v|]; [|discriminate].
  destruct ((QInt64.min_value <=? v) && (v <=? QInt64.max_value))%bool eqn:Hb;
    [|discriminate].
  injection Hparse as ->.
  apply andb_true_iff in Hb. destruct Hb as [Hb1 Hb2].
  apply Z.leb_le in Hb1. apply Z.leb_le in Hb2.
  unfold QInt64.in_range, QInt64.min_value, QInt64.max_value in *.
  split.
  - destruct (Z.lt_ge_cases memKB 0).
    + assert (- (Z.quot (- memKB) 1024) = Z.quot memKB 1024)
        by (rewrite Z.quot_opp_l by lia; lia).
      assert (Z.quot (- memKB) 1024 <= - memKB)
        by (apply Z.quot_le_upper_bound; lia).
      lia.
    + assert (0 <= Z.quot memKB 1024) by (apply Z.quot_pos; lia). lia.
  - destruct (Z.lt_ge_cases memKB 0).
    + assert (Z.quot memKB 1024 <= 0) by (apply Z.quot_le_upper_bound; lia). lia.
    + assert (Z.quot memKB 1024 <= memKB) by (apply Z.quot_le_upper_bound; lia). lia.
Qed.

(** C7, on fixture texts: a well-formed file, and one whose [MemTotal:]
    record has a field that is not a number. *)
Lemma meminfo_fallback_total_memory_witness :
  getPlatformTotalMemoryMB Linux
    (onlyMeminfo ["MemTotal:       16316412 kB";
                  "MemFree:         1204300 kB";
                  "MemAvailable:    9876540 kB"]) = 15933
  /\ getPlatformTotalMemoryMB Linux
       (onlyMeminfo ["MemFree:         1204300 kB";
                     "MemTotal:       lots kB";
                     "MemTotal:       16316412 kB"]) = 0.
Proof.
  split.
  - exact (proj1 (proj2 (proj2 (proj2 (proj2
      (meminfo_fallback_total_memory
         (onlyMeminfo ["MemTotal:       16316412 kB";
                       "MemFree:         1204300 kB";
                       "MemAvailable:    9876540 kB"]) eq_refl)
      _ eq_refl) _ eq_refl) "16316412" eq_refl) 16316412 eq_refl)).
  - exact (proj1 (proj2 (proj2 (proj2
      (meminfo_fallback_total_memory
         (onlyMeminfo ["MemFree:         1204300 kB";
                       "MemTotal:       lots kB";
                       "MemTotal:       16316412 kB"]) eq_refl)
      _ eq_refl) _ eq_refl) "lots" eq_refl) eq_refl).
Defined.

(** ** The available-memory probe *)


(** * Further properties *)

(** ** The text of [/proc/meminfo], total memory *)

(** X1, on a file with one line before the record. *)
Lemma meminfo_fallback_reads_record_witness :
  getPlatformTotalMemoryMB Linux
    (onlyMeminfo ["Hostname:  pi";
                  memTotalRecord "       " 16316412 " " "kB";
                  "MemFree:         1204300 kB"]) = 15933.
Proof.
  apply (meminfo_fallback_reads_record
           ["Hostname:  pi"] ["MemFree:         1204300 kB"]
           "       " 16316412 " " "kB").
  - repeat constructor.
  - reflexivity.
  - reflexivity.
  - reflexivity.
  - unfold QInt64.in_range, QInt64.min_value, QInt64.max_value. lia.
Defined.

(** X2. Only the first line that starts with [MemTotal:] counts: the lines
    before it and all the lines after it have no influence on the result of
    the fallback, so a first record that does not parse is not made up for
    by a later one that does. *)
Theorem only_first_MemTotal_line_counts :
  forall (before : list string) (record : string) (after : list string),
    Forall (fun line => QString.startsWith line "MemTotal:" = false) before ->
    QString.startsWith record "MemTotal:" = true ->
    getPlatformTotalMemoryMB Linux (onlyMeminfo (before ++ record :: after)%list)
    = getPlatformTotalMemoryMB Linux (onlyMeminfo [record]).
Proof.
  intros before record after Hb Hr.
  change (scanMemTotal (before ++ record :: after)%list = scanMemTotal [record]).
  induction Hb as [|line before Hline _ IH].
  - cbn [app scanMemTotal]. rewrite Hr. reflexivity.
  - cbn [app]. cbn [scanMemTotal]. rewrite Hline. exact IH.
Qed.

(** X2, on a file whose first record has no number and whose second has. *)
Lemma only_first_MemTotal_line_counts_witness :
  getPlatformTotalMemoryMB Linux
    (onlyMeminfo ["MemFree:         1204300 kB";
                  "MemTotal:       unknown";
                  "MemTotal:       16316412 kB"]) = 0.
Proof.
  refine (eq_trans
            (only_first_MemTotal_line_counts
               ["MemFree:         1204300 kB"] "MemTotal:       unknown"
               ["MemTotal:       16316412 kB"] _ _) _).
  - repeat constructor.
  - reflexivity.
  - reflexivity.
Defined.

(** ** The text of [/proc/meminfo], available memory *)

Lemma splitWhitespace_printRecord (key : string) (kB : Z) (l : RecordLayout) :
  isWord key = true -> wellFormed l = true ->
  QString.splitWhitespace (printRecord key kB l)
  = [key; QString.number kB; unitText l].
Proof.
  intros Hk Hl. unfold wellFormed in Hl.
  apply andb_true_iff in Hl. destruct Hl as [Hl Hu].
  apply andb_true_iff in Hl. destruct Hl as [H1 H2].
  unfold printRecord, meminfoRecord.
  rewrite (splitWhitespace_word_gap key (gapBefore l) _ Hk H1
             (number_starts_clean kB _)).
  rewrite (splitWhitespace_word_gap (QString.number kB) (gapAfter l) (unitText l)
             (number_is_word kB) H2 (word_starts_clean _ Hu)).
  now rewrite (splitWhitespace_word _ Hu).
Qed.

Lemma secondFieldOr_printRecord (old : Z) (key : string) (kB : Z) (l : RecordLayout) :
  isWord key = true -> wellFormed l = true -> QInt64.in_range kB ->
  secondFieldOr old (printRecord key kB l) = kB.
Proof.
  intros Hk Hl Hr. unfold secondFieldOr.
  rewrite (splitWhitespace_printRecord key kB l Hk Hl).
  cbn [List.length Nat.leb nth]. unfold QString.toLongLongOrZero.
  now rewrite (toLongLong_number kB Hr).
Qed.

Lemma scanAvailable_app (c : MeminfoCounters) (a b : list string) :
  scanAvailable c (a ++ b)%list = scanAvailable (scanAvailable c a) b.
Proof.
  revert c. induction a as [|line a IH]; intros c; [reflexivity|].
  cbn [app scanAvailable]. apply IH.
Qed.

Lemma scanAvailable_relevant (c : MeminfoCounters) (lines : list string) :
  scanAvailable c lines = scanAvailable c (filter isAvailableKey lines).
Proof.
  revert c. induction lines as [|line lines IH]; intros c; [reflexivity|].
  cbn [filter]. unfold isAvailableKey at 1.
  destruct (QString.startsWith line "MemAvailable:") eqn:Ha;
    [cbn [orb scanAvailable]; rewrite Ha; apply IH|].
  destruct (QString.startsWith line "MemFree:") eqn:Hf;
    [cbn [orb scanAvailable]; rewrite Ha, Hf; apply IH|].
  destruct (QString.startsWith line "Buffers:") eqn:Hb;
    [cbn [orb scanAvailable]; rewrite Ha, Hf, Hb; apply IH|].
  destruct (QString.startsWith line "Cached:") eqn:Hc;
    cbn [orb scanAvailable]; rewrite Ha, Hf, Hb, Hc; apply IH.
Qed.

Lemma scanAvailable_keeps_memAvailable (lines : list string) (c : MeminfoCounters) :
  Forall (fun line => QString.startsWith line "MemAvailable:" = false) lines ->
  memAvailableKB (scanAvailable c lines) = memAvailableKB c.
Proof.
  intros H. revert c. induction H as [|line rest Ha _ IH]; intros c.
  - reflexivity.
  - cbn [scanAvailable]. rewrite Ha.
    destruct (QString.startsWith line "MemFree:");
      [|destruct (QString.startsWith line "Buffers:");
        [|destruct (QString.startsWith line "Cached:")]];
      now rewrite IH.
Qed.

(** X3. The available-memory fallback reads only the lines that start with
    [MemAvailable:], [MemFree:], [Buffers:] or [Cached:]: dropping every
    other line from the text, wherever it stands, leaves the result as it
    is. *)
Theorem available_fallback_reads_four_keys :
  forall lines : list string,
    getPlatformAvailableMemoryMB Linux (onlyMeminfo lines)
    = getPlatformAvailableMemoryMB Linux (onlyMeminfo (filter isAvailableKey lines)).
Proof.
  intros lines.
  change (meminfoAvailableMemoryMB (Some lines)
          = meminfoAvailableMemoryMB (Some (filter isAvailableKey lines))).
  unfold meminfoAvailableMemoryMB.
  now rewrite <- scanAvailable_relevant.
Qed.

(** X4. When the last line of the text that starts with [MemAvailable:] is
    a record with a positive number of kilobytes, the available-memory
    fallback returns that number divided by 1024, whatever the other lines
    are (other [MemAvailable:] lines before it, and [MemFree:], [Buffers:]
    and [Cached:] lines anywhere). *)
Theorem last_MemAvailable_record_decides :
  forall (before after : list string) (kB : Z) (l : RecordLayout),
    wellFormed l = true ->
    0 < kB <= QInt64.max_value ->
    Forall (fun line => QString.startsWith line "MemAvailable:" = false) after ->
    getPlatformAvailableMemoryMB Linux
      (onlyMeminfo (before ++ printRecord "MemAvailable:" kB l :: after)%list)
    = Z.quot kB 1024.
Proof.
  intros before after kB l Hl HkB Hafter.
  change (meminfoAvailableMemoryMB
            (Some (before ++ printRecord "MemAvailable:" kB l :: after)%list)
          = Z.quot kB 1024).
  unfold meminfoAvailableMemoryMB.
  rewrite scanAvailable_app. cbn [scanAvailable].
  assert (Hs : QString.startsWith (printRecord "MemAvailable:" kB l) "MemAvailable:"
               = true) by apply startsWith_append.
  rewrite Hs.
  rewrite (scanAvailable_keeps_memAvailable after _ Hafter).
  cbn [memAvailableKB].
  rewrite secondFieldOr_printRecord; [|reflexivity|exact Hl|].
  - assert (Hp : (0 <? kB) = true) by (apply Z.ltb_lt; lia).
    now rewrite Hp.
  - unfold QInt64.in_range, QInt64.min_value, QInt64.max_value in *. lia.
Qed.

(** X4, with an older record before the deciding one. *)
Lemma last_MemAvailable_record_decides_witness :
  getPlatformAvailableMemoryMB Linux
    (onlyMeminfo ["MemAvailable:    1 kB";
                  "MemFree:         1204300 kB";
                  "MemAvailable:    9876540 kB";
                  "Buffers:          123456 kB"]) = 9645.
Proof.
  refine (eq_trans
    (last_MemAvailable_record_decides
       ["MemAvailable:    1 kB"; "MemFree:         1204300 kB"]
       ["Buffers:          123456 kB"] 9876540
       {| gapBefore := "    "; gapAfter := " "; unitText := "kB" |} _ _ _) _).
  - reflexivity.
  - unfold QInt64.max_value. lia.
  - repeat constructor.
  - reflexivity.
Defined.

(** X5. On a text without a [MemAvailable:] line (kernels before 3.14) whose
    [MemFree:], [Buffers:] and [Cached:] records carry the kilobytes [free],
    [buffers] and [cached], with [free] positive, the available-memory
    fallback returns the estimate [(free + buffers + cached) / 1024]. *)
Theorem estimate_from_free_buffers_cached :
  forall (lines : list string) (free buffers cached : Z)
         (lf lb lc : RecordLayout),
    wellFormed lf = true -> wellFormed lb = true -> wellFormed lc = true ->
    filter isAvailableKey lines
      = [printRecord "MemFree:" free lf;
         printRecord "Buffers:" buffers lb;
         printRecord "Cached:" cached lc] ->
    0 < free -> 0 <= buffers -> 0 <= cached ->
    free + buffers + cached <= QInt64.max_value ->
    getPlatformAvailableMemoryMB Linux (onlyMeminfo lines)
    = Z.quot (free + buffers + cached) 1024.
Proof.
  intros lines free buffers cached lf lb lc Hlf Hlb Hlc Hlines Hf Hb Hc Hsum.
  change (meminfoAvailableMemoryMB (Some lines)
          = Z.quot (free + buffers + cached) 1024).
  unfold meminfoAvailableMemoryMB.
  rewrite scanAvailable_relevant, Hlines.
  assert (Rf : QInt64.in_range free /\ QInt64.in_range buffers
               /\ QInt64.in_range cached
               /\ QInt64.in_range (free + buffers)
               /\ QInt64.in_range (free + buffers + cached)).
  { unfold QInt64.in_range, QInt64.min_value, QInt64.max_value in *. lia. }
  destruct Rf as (Rf & Rb & Rc & Rfb & Rfbc).
  cbn [scanAvailable].
  change (QString.startsWith (printRecord "MemFree:" free lf) "MemAvailable:")
    with false.
  change (QString.startsWith (printRecord "Buffers:" buffers lb) "MemAvailable:")
    with false.
  change (QString.startsWith (printRecord "Buffers:" buffers lb) "MemFree:")
    with false.
  change (QString.startsWith (printRecord "Cached:" cached lc) "MemAvailable:")
    with false.
  change (QString.startsWith (printRecord "Cached:" cached lc) "MemFree:")
    with false.
  change (QString.startsWith (printRecord "Cached:" cached lc) "Buffers:")
    with false.
  rewrite !(startsWith_append _ _
              : QString.startsWith (printRecord _ _ _) _ = true).
  cbn [memAvailableKB memFreeKB buffersKB cachedKB].
  rewrite !secondFieldOr_printRecord by (reflexivity || assumption).
  assert (Hp : (0 <? free) = true) by (apply Z.ltb_lt; lia).
  cbn [Z.ltb Z.compare]. rewrite Hp.
  unfold QInt64.add, QInt64.div.
  rewrite (wrap_in_range _ Rfb), (wrap_in_range _ Rfbc). reflexivity.
Qed.

(** X5, on the text of an old kernel. *)
Lemma estimate_from_free_buffers_cached_witness :
  getPlatformAvailableMemoryMB Linux
    (onlyMeminfo ["MemTotal:        2048000 kB";
                  "MemFree:          204800 kB";
                  "Buffers:           10240 kB";
                  "Cached:           102400 kB";
                  "SwapCached:            0 kB"]) = 310.
Proof.
  refine (eq_trans
    (estimate_from_free_buffers_cached
       ["MemTotal:        2048000 kB";
        "MemFree:          204800 kB";
        "Buffers:           10240 kB";
        "Cached:           102400 kB";
        "SwapCached:            0 kB"] 204800 10240 102400
       {| gapBefore := "          "; gapAfter := " "; unitText := "kB" |}
       {| gapBefore := "           "; gapAfter := " "; unitText := "kB" |}
       {| gapBefore := "           "; gapAfter := " "; unitText := "kB" |}
       eq_refl eq_refl eq_refl eq_refl _ _ _ _) _).
  - lia.
  - lia.
  - lia.
  - unfold QInt64.max_value. lia.
  - reflexivity.
Defined.

(** ** Unit conversion in the platform probes *)

Lemma whole_mebibytes (bytes : Z) :
  0 <= bytes ->
  let mb := Z.quot bytes (1024 * 1024) in
  0 <= mb /\ mb * (1024 * 1024) <= bytes < (mb + 1) * (1024 * 1024).
Proof.
  intros H. cbn zeta.
  pose proof (Z.quot_rem' bytes (1024 * 1024)) as E.
  pose proof (Z.rem_bound_pos bytes (1024 * 1024) H ltac:(lia)) as B.
  assert (0 <= Z.quot bytes (1024 * 1024)) by (apply Z.quot_pos; lia).
  lia.
Qed.

Lemma wrap_small (z : Z) : 0 <= z < 2 ^ 63 -> QInt64.wrap z = z.
Proof.
  intros H. apply wrap_in_range.
  unfold QInt64.in_range, QInt64.min_value, QInt64.max_value. lia.
Qed.

(** X6. When its system call succeeds, the total-memory probe of each
    platform returns the number of whole mebibytes in the byte count that the
    system reports: [ullTotalPhys] on Windows, [hw.memsize] on macOS, and on
    Linux [totalram * mem_unit] as long as that product fits [unsigned long],
    which has 64 bits on an LP64 build and 32 on a 32-bit one.  On Linux the
    result is never negative and its bytes fit [unsigned long], even if the
    product wraps. *)
Theorem total_probe_whole_mebibytes :
  forall sys : System,
    (forall memStatus : MEMORYSTATUSEX,
       GlobalMemoryStatusEx sys = Some memStatus ->
       0 <= ullTotalPhys memStatus < 2 ^ 64 ->
       let mb := getPlatformTotalMemoryMB Windows sys in
       0 <= mb < 2 ^ 44
       /\ mb * (1024 * 1024) <= ullTotalPhys memStatus < (mb + 1) * (1024 * 1024))
    /\ (forall memsize : Z,
          sysctl_hw_memsize sys = Some memsize ->
          0 <= memsize < 2 ^ 63 ->
          let mb := getPlatformTotalMemoryMB Darwin sys in
          0 <= mb < 2 ^ 43
          /\ mb * (1024 * 1024) <= memsize < (mb + 1) * (1024 * 1024))
    /\ (forall info : sysinfo_t,
          sysinfo sys = Some info ->
          unsigned_long_bits info = 32 \/ unsigned_long_bits info = 64 ->
          let mb := getPlatformTotalMemoryMB Linux sys in
          0 <= mb
          /\ mb * (1024 * 1024) < 2 ^ unsigned_long_bits info
          /\ (0 <= totalram info * mem_unit info < 2 ^ unsigned_long_bits info ->
              mb * (1024 * 1024) <= totalram info * mem_unit info
                < (mb + 1) * (1024 * 1024))).
Proof.
  intros sys. split; [|split].
  - intros memStatus H Hr. cbn zeta. cbn [getPlatformTotalMemoryMB].
    rewrite H. unfold UInt64.div.
    destruct (whole_mebibytes (ullTotalPhys memStatus) ltac:(lia)) as (H0 & H1).
    rewrite wrap_small; lia.
  - intros memsize H Hr. cbn zeta. cbn [getPlatformTotalMemoryMB].
    rewrite H. unfold QInt64.div.
    destruct (whole_mebibytes memsize ltac:(lia)) as (H0 & H1). lia.
  - intros info H Hbits. cbn zeta. cbn [getPlatformTotalMemoryMB].
    rewrite H. unfold ULong.div, ULong.mul, ULong.wrap.
    assert (Hpow : 0 < 2 ^ unsigned_long_bits info <= 2 ^ 64)
      by (destruct Hbits as [-> | ->]; lia).
    pose proof (Z.mod_pos_bound (totalram info * mem_unit info)
                  (2 ^ unsigned_long_bits info) ltac:(lia)) as Hm.
    destruct (whole_mebibytes
                ((totalram info * mem_unit info) mod 2 ^ unsigned_long_bits info)
                ltac:(lia)) as (H0 & H1).
    rewrite wrap_small by lia.
    split; [lia|]. split; [lia|].
    intros Hr. rewrite Z.mod_small in * by lia. lia.
Qed.

(** X6, on a 32-bit Linux build: a host with 1 GiB in pages of 4 KiB gets
    1024, while 8 GiB do not fit [unsigned long] and give 0. *)
Lemma total_probe_whole_mebibytes_witness :
  getPlatformTotalMemoryMB Linux
    (withSysinfo {| unsigned_long_bits := 32; totalram := 262144; freeram := 0;
                    bufferram := 0; mem_unit := 4096 |} None)
  = 1024
  /\ getPlatformTotalMemoryMB Linux
       (withSysinfo {| unsigned_long_bits := 32; totalram := 2097152; freeram := 0;
                       bufferram := 0; mem_unit := 4096 |} None)
     = 0.
Proof.
  split; [|reflexivity].
  pose proof (proj2 (proj2 (total_probe_whole_mebibytes
    (withSysinfo {| unsigned_long_bits := 32; totalram := 262144; freeram := 0;
                    bufferram := 0; mem_unit := 4096 |} None)))
    _ eq_refl (or_introl eq_refl)) as (_ & _ & H).
  cbn [unsigned_long_bits totalram mem_unit] in H.
  specialize (H ltac:(lia)). lia.
Defined.

(** X7. When its system calls succeed, the available-memory probe returns
    whole mebibytes too: of [ullAvailPhys] on Windows; of
    [(free_count + inactive_count) * page_size] on macOS as long as the page
    count fits 32 bits and the byte count 63 bits; and on Linux of
    [(freeram + bufferram) * mem_unit] as long as that fits [unsigned long]
    (64 bits on an LP64 build, 32 on a 32-bit one) and 63 bits. *)
Theorem available_probe_whole_mebibytes :
  forall sys : System,
    (forall memStatus : MEMORYSTATUSEX,
       GlobalMemoryStatusEx sys = Some memStatus ->
       0 <= ullAvailPhys memStatus < 2 ^ 64 ->
       let mb := getPlatformAvailableMemoryMB Windows sys in
       0 <= mb
       /\ mb * (1024 * 1024) <= ullAvailPhys memStatus < (mb + 1) * (1024 * 1024))
    /\ (forall (page_size : Z) (vm_stat : vm_statistics64),
          host_page_size sys = Some page_size ->
          host_statistics64 sys = Some vm_stat ->
          let pages := free_count vm_stat + inactive_count vm_stat in
          0 <= pages < 2 ^ 32 ->
          0 <= pages * page_size < 2 ^ 63 ->
          let mb := getPlatformAvailableMemoryMB Darwin sys in
          0 <= mb
          /\ mb * (1024 * 1024) <= pages * page_size < (mb + 1) * (1024 * 1024))
    /\ (forall info : sysinfo_t,
          sysinfo sys = Some info ->
          unsigned_long_bits info = 32 \/ unsigned_long_bits info = 64 ->
          let bytes := (freeram info + bufferram info) * mem_unit info in
          0 <= bytes < 2 ^ unsigned_long_bits info ->
          bytes < 2 ^ 63 ->
          let mb := getPlatformAvailableMemoryMB Linux sys in
          0 <= mb
          /\ mb * (1024 * 1024) <= bytes < (mb + 1) * (1024 * 1024)).
Proof.
  intros sys. split; [|split].
  - intros memStatus H Hr. cbn zeta. cbn [getPlatformAvailableMemoryMB].
    rewrite H. unfold UInt64.div.
    destruct (whole_mebibytes (ullAvailPhys memStatus) ltac:(lia)) as (H0 & H1).
    rewrite wrap_small; lia.
  - intros page_size vm_stat Hp Hv pages Hpages Hbytes.
    cbn zeta. cbn [getPlatformAvailableMemoryMB].
    rewrite Hp, Hv. unfold UInt32.add, UInt32.wrap, QInt64.mul, QInt64.div.
    fold pages. rewrite (Z.mod_small pages) by lia.
    rewrite wrap_small by lia.
    destruct (whole_mebibytes (pages * page_size) ltac:(lia)) as (H0 & H1). lia.
  - intros info H Hbits bytes Hr H63. cbn zeta. cbn [getPlatformAvailableMemoryMB].
    rewrite H.
    unfold ULong.mul, ULong.add, ULong.wrap, QInt64.div.
    rewrite Zmult_mod_idemp_l. fold bytes.
    rewrite (Z.mod_small bytes) by lia.
    rewrite wrap_small by lia.
    destruct (whole_mebibytes bytes ltac:(lia)) as (H0 & H1). lia.
Qed.

(** X7, on a 32-bit Linux build with 512 MiB free and 256 MiB in buffers. *)
Lemma available_probe_whole_mebibytes_witness :
  getPlatformAvailableMemoryMB Linux
    (withSysinfo {| unsigned_long_bits := 32; totalram := 262144; freeram := 131072;
                    bufferram := 65536; mem_unit := 4096 |} None)
  = 768.
Proof.
  pose proof (proj2 (proj2 (available_probe_whole_mebibytes
    (withSysinfo {| unsigned_long_bits := 32; totalram := 262144; freeram := 131072;
                    bufferram := 65536; mem_unit := 4096 |} None)))
    _ eq_refl (or_introl eq_refl) ltac:(cbn; lia) ltac:(cbn; lia)) as [_ H].
  cbn [unsigned_long_bits freeram bufferram mem_unit] in H. lia.
Defined.

(** ** Replies and printed lines of a whole process *)

Section WholeProcess.

Context (K : PolicyConstants) (platform : Platform) (os : nat -> System).

Lemma performAll_cons_replies (c : Call) (rest : list Call) (p : Process) :
  fst (performAll K platform os (c :: rest) p)
  = fst (perform K platform os c p)
    :: fst (performAll K platform os rest (snd (perform K platform os c p))).
Proof.
  cbn [performAll]. unfold bind.
  destruct (perform K platform os c p) as [r p1]. cbn [fst snd].
  destruct (performAll K platform os rest p1) as [rs p2]. reflexivity.
Qed.

(** One call in a process whose cache is filled. *)
Lemma perform_settled (c : Call) (p : Process) :
  _cachedTotalMemoryMB p <> -1 ->
  perform K platform os c p
  = (answer K platform (_cachedTotalMemoryMB p) c,
     if isCalculate c then
       {| _cachedTotalMemoryMB := _cachedTotalMemoryMB p;
          cacheStores := cacheStores p;
          totalProbes := totalProbes p;
          availableProbes := availableProbes p;
          debugOutput :=
            (debugOutput p
             ++ [adaptiveSyncLine K platform (_cachedTotalMemoryMB p)])%list |}
     else p).
Proof.
  intros H. destruct c; cbn [perform answer isCalculate];
    unfold getAvailableMemoryMB, bind;
    try rewrite calculateSyncConfiguration_unfold;
    try rewrite (getTotalMemoryMB_cached platform os p H); reflexivity.
Qed.

(** One call that needs the total in a process that has made no probe. *)
Lemma perform_untouched (c : Call) (p : Process) :
  _cachedTotalMemoryMB p = -1 -> probesSoFar p = 0%nat ->
  needsTotal c = true ->
  let detected := getPlatformTotalMemoryMB platform (os 0%nat) in
  perform K platform os c p
  = (answer K platform (cachedFor detected) c,
     {| _cachedTotalMemoryMB := cachedFor detected;
        cacheStores := (cacheStores p ++ storesFor detected)%list;
        totalProbes := S (totalProbes p);
        availableProbes := availableProbes p;
        debugOutput :=
          (debugOutput p ++ detectionLines platform detected
           ++ (if isCalculate c
               then [adaptiveSyncLine K platform (cachedFor detected)]
               else []))%list |}).
Proof.
  intros Hc Hp Hn. cbn zeta.
  destruct c; try discriminate; cbn [perform answer isCalculate];
    unfold getAvailableMemoryMB, bind;
    try rewrite calculateSyncConfiguration_unfold;
    rewrite (getTotalMemoryMB_absent platform os p Hc), Hp;
    cbn [fst snd ret _cachedTotalMemoryMB cacheStores totalProbes availableProbes
         debugOutput];
    unfold detectionLines, adaptiveSyncLine;
    rewrite <- ?app_assoc, ?app_nil_r; reflexivity.
Qed.

Lemma replies_settled (calls : list Call) (p : Process) :
  _cachedTotalMemoryMB p <> -1 ->
  fst (performAll K platform os calls p)
  = map (answer K platform (_cachedTotalMemoryMB p)) calls.
Proof.
  revert p. induction calls as [|c rest IH]; intros p H; [reflexivity|].
  rewrite performAll_cons_replies, (perform_settled c p H). cbn [fst snd map].
  f_equal. rewrite IH; destruct (isCalculate c); cbn; auto.
Qed.

Lemma output_settled (calls : list Call) (p : Process) :
  _cachedTotalMemoryMB p <> -1 ->
  debugOutput (processAfter K platform os calls p)
  = (debugOutput p
     ++ repeat (adaptiveSyncLine K platform (_cachedTotalMemoryMB p))
          (List.length (filter isCalculate calls)))%list.
Proof.
  revert p. induction calls as [|c rest IH]; intros p H.
  - cbn. now rewrite app_nil_r.
  - rewrite performAll_cons, (perform_settled c p H). cbn [snd filter].
    destruct (isCalculate c).
    + rewrite IH by exact H. cbn. now rewrite <- app_assoc.
    + now rewrite IH.
Qed.

(** X8. From the start of a process, the replies to any sequence of public
    calls are determined by the first answer of the total-memory probe:
    [getTotalMemoryMB] and [getAvailableMemoryMB] always reply with the same
    positive total (the detected one, or 4096), and
    [calculateSyncConfiguration] always replies with the configuration of
    that total, in whatever order the calls are made. *)
Theorem replies_from_start :
  forall calls : list Call,
    let total := cachedFor (getPlatformTotalMemoryMB platform (os 0%nat)) in
    0 < total
    /\ fst (performAll K platform os calls processStart)
       = map (answer K platform total) calls.
Proof.
  intros calls total. split; [apply cachedFor_positive|].
  assert (G : forall p,
    _cachedTotalMemoryMB p = -1 -> probesSoFar p = 0%nat ->
    fst (performAll K platform os calls p) = map (answer K platform total) calls).
  { induction calls as [|c rest IH]; intros p Hc Hp; [reflexivity|].
    rewrite performAll_cons_replies. cbn [map].
    destruct (needsTotal c) eqn:Hn.
    - rewrite (perform_untouched c p Hc Hp Hn). cbn [fst snd]. f_equal.
      rewrite replies_settled; [reflexivity|].
      cbn. pose proof (cachedFor_positive
        (getPlatformTotalMemoryMB platform (os 0%nat))). lia.
    - destruct c; try discriminate. cbn [perform ret fst snd answer].
      f_equal. now apply IH. }
  now apply G.
Qed.

(** X9. From the start of a process, what has been sent to [qDebug] after
    any sequence of public calls is: nothing for the detection as long as no
    call needed the total; otherwise first the lines of the one detection
    (the warning that memory could not be detected exactly when the probe's
    answer was not positive, then the detected total with the platform
    name), printed once however many calls follow; and after them one and
    the same line for each call of [calculateSyncConfiguration]. *)
Theorem debug_output_from_start :
  forall calls : list Call,
    let detected := getPlatformTotalMemoryMB platform (os 0%nat) in
    debugOutput (processAfter K platform os calls processStart)
    = ((if existsb needsTotal calls then detectionLines platform detected else [])
       ++ repeat (adaptiveSyncLine K platform (cachedFor detected))
            (List.length (filter isCalculate calls)))%list.
Proof.
  intros calls detected.
  assert (G : forall p,
    _cachedTotalMemoryMB p = -1 -> probesSoFar p = 0%nat ->
    debugOutput (processAfter K platform os calls p)
    = (debugOutput p
       ++ (if existsb needsTotal calls then detectionLines platform detected else [])
       ++ repeat (adaptiveSyncLine K platform (cachedFor detected))
            (List.length (filter isCalculate calls)))%list).
  { induction calls as [|c rest IH]; intros p Hc Hp.
    - cbn. now rewrite app_nil_r.
    - rewrite performAll_cons. cbn [existsb filter].
      destruct (needsTotal c) eqn:Hn.
      + rewrite (perform_untouched c p Hc Hp Hn). cbn [snd orb].
        rewrite output_settled.
        * cbn [_cachedTotalMemoryMB debugOutput]. fold detected.
          destruct (isCalculate c); cbn [List.length repeat];
            rewrite <- ?app_assoc; cbn [app]; rewrite ?app_nil_r; reflexivity.
        * cbn. pose proof (cachedFor_positive
            (getPlatformTotalMemoryMB platform (os 0%nat))). lia.
      + destruct c; try discriminate.
        cbn [perform ret snd orb isCalculate]. now apply IH. }
  apply (G processStart); reflexivity.
Qed.

End WholeProcess.

(** ** Shape of the byte interval *)

(** With ordered thresholds of at most 2^49 MB the byte interval is the
    clamped exact product. *)
Lemma bytes_exact (K : PolicyConstants) (T : Z) :
  LOW_MEMORY_THRESHOLD_MB K <= HIGH_MEMORY_THRESHOLD_MB K ->
  HIGH_MEMORY_THRESHOLD_MB K <= 2 ^ 49 ->
  syncIntervalBytes (syncConfigurationFor K T)
  = Z.max (MIN_SYNC_INTERVAL_BYTES K)
      (Z.min (MAX_SYNC_INTERVAL_BYTES K)
         ((if T <? LOW_MEMORY_THRESHOLD_MB K then Z.max 16 (Z.quot T 64)
           else if T <? HIGH_MEMORY_THRESHOLD_MB K then Z.max 32 (Z.quot T 80)
           else Z.min 256 (Z.max 64 (Z.quot T 64))) * (1024 * 1024))).
Proof.
  intros Hord Hhigh. rewrite bounds_clamp. unfold QInt64.div.
  destruct (Z.ltb_spec T (LOW_MEMORY_THRESHOLD_MB K)) as [H1|H1];
    [|destruct (Z.ltb_spec T (HIGH_MEMORY_THRESHOLD_MB K)) as [H2|H2]];
    rewrite ?qMin_min, ?qMax_max.
  - pose proof (quot_below T 64). rewrite megabytes_to_bytes; [reflexivity|lia].
  - pose proof (quot_below T 80). rewrite megabytes_to_bytes; [reflexivity|lia].
  - rewrite megabytes_to_bytes; [reflexivity|lia].
Qed.

(** X10. The byte interval never decreases as the total grows, except
    across the low threshold: with ordered thresholds of at most 2^49 MB it
    is non-decreasing inside each tier, and when moreover the high threshold
    is at most 20560 MB or the upper byte bound at most 256 MiB it is
    non-decreasing over all totals from the low threshold on. *)
Theorem syncIntervalBytes_monotone_but_at_low_threshold :
  forall (K : PolicyConstants) (T1 T2 : Z),
    LOW_MEMORY_THRESHOLD_MB K <= HIGH_MEMORY_THRESHOLD_MB K ->
    HIGH_MEMORY_THRESHOLD_MB K <= 2 ^ 49 ->
    T1 <= T2 ->
    let bytes := fun T => syncIntervalBytes (syncConfigurationFor K T) in
    (T2 < LOW_MEMORY_THRESHOLD_MB K
     \/ (LOW_MEMORY_THRESHOLD_MB K <= T1 /\ T2 < HIGH_MEMORY_THRESHOLD_MB K)
     \/ HIGH_MEMORY_THRESHOLD_MB K <= T1 ->
     bytes T1 <= bytes T2)
    /\ (HIGH_MEMORY_THRESHOLD_MB K <= 20560
        \/ MAX_SYNC_INTERVAL_BYTES K <= 256 * (1024 * 1024) ->
        LOW_MEMORY_THRESHOLD_MB K <= T1 ->
        bytes T1 <= bytes T2).
Proof.
  intros K T1 T2 Hord Hhigh HT bytes. unfold bytes.
  rewrite !bytes_exact by assumption.
  pose proof (Z.quot_le_mono T1 T2 64 ltac:(lia) HT) as Q64.
  pose proof (Z.quot_le_mono T1 T2 80 ltac:(lia) HT) as Q80.
  split.
  - intros [H|[[H1 H2]|H]];
      destruct (Z.ltb_spec T1 (LOW_MEMORY_THRESHOLD_MB K));
      destruct (Z.ltb_spec T2 (LOW_MEMORY_THRESHOLD_MB K));
      destruct (Z.ltb_spec T1 (HIGH_MEMORY_THRESHOLD_MB K));
      destruct (Z.ltb_spec T2 (HIGH_MEMORY_THRESHOLD_MB K)); lia.
  - intros Hcap Hlow.
    destruct (Z.ltb_spec T1 (LOW_MEMORY_THRESHOLD_MB K)); [lia|].
    destruct (Z.ltb_spec T2 (LOW_MEMORY_THRESHOLD_MB K)); [lia|].
    destruct (Z.ltb_spec T1 (HIGH_MEMORY_THRESHOLD_MB K));
      destruct (Z.ltb_spec T2 (HIGH_MEMORY_THRESHOLD_MB K)); try lia.
    (* the crossing from Medium to High *)
    assert (0 <= T1 \/ T1 < 0) as [Hpos|Hneg] by lia.
    + assert (Z.quot T1 80 <= Z.quot T1 64).
      { pose proof (Z.quot_rem' T1 80). pose proof (Z.quot_rem' T1 64).
        pose proof (Z.rem_bound_pos T1 80 Hpos ltac:(lia)).
        pose proof (Z.rem_bound_pos T1 64 Hpos ltac:(lia)).
        assert (0 <= Z.quot T1 80) by (apply Z.quot_pos; lia). lia. }
      destruct Hcap as [Hcap|Hcap].
      * assert (Z.quot T1 80 <= 256).
        { pose proof (Z.quot_le_mono T1 20560 80 ltac:(lia) ltac:(lia)) as Q.
          change (Z.quot 20560 80) with 257 in Q.
          assert (Z.quot T1 80 < 257); [|lia].
          apply Z.quot_lt_upper_bound; lia. }
        lia.
      * lia.
    + assert (Z.quot T1 80 <= 0) by (apply Z.quot_le_upper_bound; lia). lia.
Qed.

(** X10, at the example constants: from 4096 MB to 32768 MB. *)
Lemma syncIntervalBytes_monotone_but_at_low_threshold_witness :
  syncIntervalBytes (syncConfigurationFor exampleConstants 4096)
  <= syncIntervalBytes (syncConfigurationFor exampleConstants 32768).
Proof.
  apply (proj2 (syncIntervalBytes_monotone_but_at_low_threshold
                  exampleConstants 4096 32768
                  ltac:(cbn; lia) ltac:(cbn; lia) ltac:(lia))).
  - left. cbn. lia.
  - cbn. lia.
Defined.

(** X11. The floors and the cap that the code's comments name hold for the
    byte interval (with ordered thresholds of at most 2^49 MB, and up to the
    final clamp): at least 16 MiB for every total, at least 32 MiB from the
    low threshold on, between 64 MiB and 256 MiB from the high threshold on.
    The interval is flat at both ends: below the low threshold every total
    under 1088 MB gets the floor of 16 MiB, and from the high threshold on
    every total of at least 16384 MB gets the cap of 256 MiB. *)
Theorem tier_floors_and_cap :
  forall (K : PolicyConstants) (T : Z),
    LOW_MEMORY_THRESHOLD_MB K <= HIGH_MEMORY_THRESHOLD_MB K ->
    HIGH_MEMORY_THRESHOLD_MB K <= 2 ^ 49 ->
    let bytes := syncIntervalBytes (syncConfigurationFor K T) in
    let clamp := fun mb =>
      Z.max (MIN_SYNC_INTERVAL_BYTES K)
        (Z.min (MAX_SYNC_INTERVAL_BYTES K) (mb * (1024 * 1024))) in
    clamp 16 <= bytes
    /\ (LOW_MEMORY_THRESHOLD_MB K <= T -> clamp 32 <= bytes)
    /\ (HIGH_MEMORY_THRESHOLD_MB K <= T -> clamp 64 <= bytes <= clamp 256)
    /\ (T < LOW_MEMORY_THRESHOLD_MB K -> T < 1088 -> bytes = clamp 16)
    /\ (HIGH_MEMORY_THRESHOLD_MB K <= T -> 16384 <= T -> bytes = clamp 256).
Proof.
  intros K T Hord Hhigh bytes clamp. unfold bytes, clamp.
  rewrite bytes_exact by assumption.
  assert (Hq : T < 1088 -> Z.quot T 64 <= 16).
  { intros H. destruct (Z.lt_ge_cases T 0).
    - assert (Z.quot T 64 <= 0) by (apply Z.quot_le_upper_bound; lia). lia.
    - assert (Z.quot T 64 < 17) by (apply Z.quot_lt_upper_bound; lia). lia. }
  assert (Hc : 16384 <= T -> 256 <= Z.quot T 64).
  { intros H. apply Z.quot_le_lower_bound; lia. }
  destruct (Z.ltb_spec T (LOW_MEMORY_THRESHOLD_MB K));
    destruct (Z.ltb_spec T (HIGH_MEMORY_THRESHOLD_MB K));
    repeat split; intros; lia.
Qed.

(** X11, at the example constants: a host with 1 TiB gets 256 MiB. *)
Lemma tier_floors_and_cap_witness :
  syncIntervalBytes (syncConfigurationFor exampleConstants (1024 * 1024)) = 268435456.
Proof.
  exact (proj2 (proj2 (proj2 (proj2
    (tier_floors_and_cap exampleConstants (1024 * 1024)
       ltac:(cbn; lia) ltac:(cbn; lia)))))
    ltac:(cbn; lia) ltac:(lia)).
Defined.

(** X12. When both byte bounds are whole mebibytes (and the thresholds are
    ordered and at most 2^49 MB), the byte interval is a whole number of
    mebibytes, and the line that [calculateSyncConfiguration] sends to
    [qDebug] reports exactly that number, next to the tier label and the
    time interval of the configuration it returns. *)
Theorem debug_line_reports_interval_exactly :
  forall (K : PolicyConstants) (platform : Platform) (os : nat -> System)
         (p : Process),
    LOW_MEMORY_THRESHOLD_MB K <= HIGH_MEMORY_THRESHOLD_MB K ->
    HIGH_MEMORY_THRESHOLD_MB K <= 2 ^ 49 ->
    (1024 * 1024 | MIN_SYNC_INTERVAL_BYTES K) ->
    (1024 * 1024 | MAX_SYNC_INTERVAL_BYTES K) ->
    let r := calculateSyncConfiguration K platform os p in
    exists mb : Z,
      syncIntervalBytes (fst r) = mb * (1024 * 1024)
      /\ debugOutput (snd r)
         = (debugOutput (snd (getTotalMemoryMB platform os p))
            ++ [AdaptiveSync (memoryTier (fst r)) mb (syncIntervalMs (fst r))
                  (getPlatformName platform)])%list.
Proof.
  intros K platform os p Hord Hhigh [kmin Hmin] [kmax Hmax]. cbn zeta.
  rewrite calculateSyncConfiguration_unfold. cbn [fst snd debugOutput].
  set (T := fst (getTotalMemoryMB platform os p)).
  assert (Hb : exists mb, syncIntervalBytes (syncConfigurationFor K T)
                          = mb * (1024 * 1024)).
  { rewrite bytes_exact by assumption.
    set (m := if T <? LOW_MEMORY_THRESHOLD_MB K then Z.max 16 (Z.quot T 64)
              else if T <? HIGH_MEMORY_THRESHOLD_MB K then Z.max 32 (Z.quot T 80)
              else Z.min 256 (Z.max 64 (Z.quot T 64))).
    destruct (Z.max_spec (MIN_SYNC_INTERVAL_BYTES K)
                (Z.min (MAX_SYNC_INTERVAL_BYTES K) (m * (1024 * 1024))))
      as [[_ ->]|[_ ->]].
    - destruct (Z.min_spec (MAX_SYNC_INTERVAL_BYTES K) (m * (1024 * 1024)))
        as [[_ ->]|[_ ->]]; eauto.
    - eauto. }
  destruct Hb as [mb Hb]. exists mb. split; [exact Hb|].
  do 2 f_equal. rewrite Hb. unfold QInt64.div.
  rewrite Z.quot_quot by lia. change (1024 * 1024) with 1048576.
  now rewrite Z.quot_mul by lia.
Qed.

(** X12, at the example constants on a Mac with 8 GiB. *)
Lemma debug_line_reports_interval_exactly_witness :
  let os := fun _ : nat =>
    {| GlobalMemoryStatusEx := None;
       sysctl_hw_memsize := Some (8192 * 1024 * 1024);
       host_page_size := None; host_statistics64 := None;
       sysinfo := None; proc_meminfo := None |} in
  exists mb : Z,
    syncIntervalBytes
      (fst (calculateSyncConfiguration exampleConstants Darwin os processStart))
    = mb * (1024 * 1024).
Proof.
  intros os.
  destruct (debug_line_reports_interval_exactly exampleConstants Darwin os
              processStart ltac:(cbn; lia) ltac:(cbn; lia)
              (ex_intro _ 16 eq_refl) (ex_intro _ 256 eq_refl))
    as (mb & H & _).
  exists mb. exact H.
Defined.

(** ** The default drive *)

Lemma firstIndexFrom_found (f : Drive -> bool) (rows : list Drive) (i j : Z) :
  firstIndexFrom i f rows = Some j ->
  i <= j
  /\ exists row, nth_error rows (Z.to_nat (j - i)) = Some row /\ f row = true.
Proof.
  revert i. induction rows as [|row rest IH]; intros i H; [discriminate|].
  cbn in H. destruct (f row) eqn:Hf.
  - injection H as <-. split; [lia|]. exists row.
    rewrite Z.sub_diag. auto.
  - destruct (IH _ H) as (Hle & r & Hn & Hr). split; [lia|]. exists r.
    replace (Z.to_nat (j - i)) with (S (Z.to_nat (j - (i + 1)))) by lia. auto.
Qed.

Lemma firstIndexFrom_none (f : Drive -> bool) (rows : list Drive) (i : Z) :
  firstIndexFrom i f rows = None -> Forall (fun row => f row = false) rows.
Proof.
  revert i. induction rows as [|row rest IH]; intros i H; [constructor|].
  cbn in H. destruct (f row) eqn:Hf; [discriminate|].
  constructor; eauto.
Qed.

Lemma scanDrives_sdIdx (rows : list Drive) (i : Z) (c : Candidates) :
  0 <= i ->
  sdIdx (scanDrives i rows c)
  = if sdIdx c =? -1 then
      match firstIndexFrom i (fun d => eligible d && isSdCard d)%bool rows with
      | Some j => j
      | None => -1
      end
    else sdIdx c.
Proof.
  revert i c. induction rows as [|row rest IH]; intros i c Hi.
  - cbn. now destruct (sdIdx c =? -1) eqn:E; [apply Z.eqb_eq in E|].
  - cbn [scanDrives firstIndexFrom]. rewrite IH by lia.
    unfold eligible, isSdCard.
    destruct (isSystem row), (isReadOnly row), (isUsb row), (isScsi row),
      (sdIdx c =? -1) eqn:Es, (usbIdx c =? -1), (otherIdx c =? -1);
      cbn; rewrite ?Es; try reflexivity;
      destruct (Z.eqb_spec i (-1)); try lia; reflexivity.
Qed.

Lemma scanDrives_usbIdx (rows : list Drive) (i : Z) (c : Candidates) :
  0 <= i ->
  usbIdx (scanDrives i rows c)
  = if usbIdx c =? -1 then
      match firstIndexFrom i (fun d => eligible d && isUsb d)%bool rows with
      | Some j => j
      | None => -1
      end
    else usbIdx c.
Proof.
  revert i c. induction rows as [|row rest IH]; intros i c Hi.
  - cbn. now destruct (usbIdx c =? -1) eqn:E; [apply Z.eqb_eq in E|].
  - cbn [scanDrives firstIndexFrom]. rewrite IH by lia.
    unfold eligible.
    destruct (isSystem row), (isReadOnly row), (isUsb row), (isScsi row),
      (sdIdx c =? -1), (usbIdx c =? -1) eqn:Eu, (otherIdx c =? -1);
      cbn; rewrite ?Eu; try reflexivity;
      destruct (Z.eqb_spec i (-1)); try lia; reflexivity.
Qed.

(** Where no eligible row is an SD card or a USB device, the third candidate
    is the first eligible row. *)
Lemma scanDrives_otherIdx (rows : list Drive) (i : Z) (c : Candidates) :
  0 <= i ->
  Forall (fun d => (eligible d && isSdCard d)%bool = false) rows ->
  Forall (fun d => (eligible d && isUsb d)%bool = false) rows ->
  otherIdx (scanDrives i rows c)
  = if otherIdx c =? -1 then
      match firstIndexFrom i eligible rows with
      | Some j => j
      | None => -1
      end
    else otherIdx c.
Proof.
  intros Hi Hsd. revert i c Hi.
  induction Hsd as [|row rest Hs _ IH]; intros i c Hi Husb.
  - cbn. now destruct (otherIdx c =? -1) eqn:E; [apply Z.eqb_eq in E|].
  - inversion Husb as [|? ? Hu Husb']; subst.
    cbn [scanDrives firstIndexFrom]. rewrite IH by (lia || assumption).
    unfold eligible, isSdCard in *.
    destruct (isSystem row), (isReadOnly row), (isUsb row), (isScsi row),
      (sdIdx c =? -1), (usbIdx c =? -1), (otherIdx c =? -1) eqn:Eo;
      cbn in *; rewrite ?Eo; try reflexivity; try discriminate;
      destruct (Z.eqb_spec i (-1)); try lia; reflexivity.
Qed.

Lemma chosenDrive_priorityPick (rows : list Drive) :
  chosenDrive rows = match priorityPick rows with Some i => i | None => -1 end.
Proof.
  unfold chosenDrive, priorityPick.
  rewrite scanDrives_sdIdx, scanDrives_usbIdx by lia. cbn [sdIdx usbIdx].
  rewrite !Z.eqb_refl.
  destruct (firstIndexFrom 0 (fun d => (eligible d && isSdCard d)%bool) rows)
    as [j|] eqn:Esd.
  - destruct (firstIndexFrom_found _ _ _ _ Esd) as [Hj _].
    destruct (Z.eqb_spec j (-1)); [lia|reflexivity].
  - rewrite Z.eqb_refl. cbn [negb].
    destruct (firstIndexFrom 0 (fun d => (eligible d && isUsb d)%bool) rows)
      as [j|] eqn:Eusb.
    + destruct (firstIndexFrom_found _ _ _ _ Eusb) as [Hj _].
      destruct (Z.eqb_spec j (-1)); [lia|reflexivity].
    + rewrite Z.eqb_refl. cbn [negb].
      rewrite scanDrives_otherIdx;
        [reflexivity | lia | eapply firstIndexFrom_none; eassumption
         | eapply firstIndexFrom_none; eassumption].
Qed.

Lemma priorityPick_eligible (rows : list Drive) (i : Z) :
  priorityPick rows = Some i ->
  0 <= i
  /\ exists row, nth_error rows (Z.to_nat i) = Some row /\ eligible row = true.
Proof.
  unfold priorityPick. intros H.
  destruct (firstIndexFrom 0 (fun d => (eligible d && isSdCard d)%bool) rows)
    as [j|] eqn:Esd.
  - injection H as <-.
    destruct (firstIndexFrom_found _ _ _ _ Esd) as (Hj & row & Hn & Hf).
    rewrite Z.sub_0_r in Hn. apply andb_true_iff in Hf. split; [lia|]. eauto.
    exists row. tauto.
  - destruct (firstIndexFrom 0 (fun d => (eligible d && isUsb d)%bool) rows)
      as [j|] eqn:Eusb.
    + injection H as <-.
      destruct (firstIndexFrom_found _ _ _ _ Eusb) as (Hj & row & Hn & Hf).
      rewrite Z.sub_0_r in Hn. apply andb_true_iff in Hf. split; [lia|].
      exists row. tauto.
    + destruct (firstIndexFrom_found _ _ _ _ H) as (Hj & row & Hn & Hf).
      rewrite Z.sub_0_r in Hn. split; [lia|]. eauto.
Qed.

Lemma selectDefaultDrive_effect (model : option (list Drive)) (s : StorageStep) :
  match match model with Some rows => priorityPick rows | None => None end with
  | None => selectDefaultDrive model s = s
  | Some i =>
      exists rows row,
        model = Some rows
        /\ 0 <= i
        /\ nth_error rows (Z.to_nat i) = Some row
        /\ eligible row = true
        /\ selectDefaultDrive model s
           = makeDestination (Some i) (device row) (description row) s
  end.
Proof.
  destruct model as [rows|]; [|reflexivity].
  unfold selectDefaultDrive. rewrite chosenDrive_priorityPick.
  destruct (priorityPick rows) as [i|] eqn:Hp.
  - destruct (priorityPick_eligible rows i Hp) as (Hi & row & Hn & He).
    exists rows, row. repeat split; try assumption.
    destruct rows as [|r0 rest]; [now destruct (Z.to_nat i)|].
    destruct (Z.eqb_spec i (-1)); [lia|].
    now rewrite (nth_error_nth _ _ noDrive Hn).
  - now destruct rows.
Qed.


(** ** Destinations set by the storage selection step *)

Section Destinations.

Context (formatSize : string -> string).

(** What one event can do to the destination and to the dialog: nothing; or
    make a drive the destination that is neither read-only nor a system
    drive; or open the dialog for a system drive that is not read-only; or,
    on confirmation, make the dialog's device the destination. *)
Lemma handle_outcome (e : UiEvent) (s : StorageStep) :
  let s' := handle formatSize e s in
  (setDstCalls s' = setDstCalls s
   /\ systemDriveConfirm s' = systemDriveConfirm s)
  \/ (exists d, In d (drivesOf e)
                /\ isReadOnly d = false /\ isSystem d = false
                /\ setDstCalls s' = (setDstCalls s ++ [device d])%list
                /\ systemDriveConfirm s' = systemDriveConfirm s)
  \/ (exists d, In d (drivesOf e)
                /\ isReadOnly d = false /\ isSystem d = true
                /\ setDstCalls s' = setDstCalls s
                /\ confirmDevice (systemDriveConfirm s') = device d
                /\ confirmOpened (systemDriveConfirm s')
                   = (confirmOpened (systemDriveConfirm s) ++ [device d])%list)
  \/ (e = SystemDriveConfirmed
      /\ setDstCalls s'
         = (setDstCalls s ++ [confirmDevice (systemDriveConfirm s)])%list
      /\ systemDriveConfirm s' = systemDriveConfirm s).
Proof.
  assert (Sel : forall d s1,
    setDstCalls s1 = setDstCalls s ->
    systemDriveConfirm s1 = systemDriveConfirm s ->
    isReadOnly d = false ->
    let s' := selectDstItem formatSize d s1 in
    (isSystem d = false
     /\ setDstCalls s' = (setDstCalls s ++ [device d])%list
     /\ systemDriveConfirm s' = systemDriveConfirm s)
    \/ (isSystem d = true
        /\ setDstCalls s' = setDstCalls s
        /\ confirmDevice (systemDriveConfirm s') = device d
        /\ confirmOpened (systemDriveConfirm s')
           = (confirmOpened (systemDriveConfirm s) ++ [device d])%list)).
  { intros d s1 H1 H2 Hro. unfold selectDstItem. rewrite Hro.
    destruct (isSystem d); cbn; rewrite H1, ?H2; auto. }
  cbn zeta.
  destruct e as [d idx|idx count [d|]|model| | |checked dw| | | | |item|name];
    cbn [handle drivesOf].
  - destruct (isReadOnly d) eqn:Hro; cbn [negb]; [auto|].
    destruct (Sel d (setCurrentIndex idx s) eq_refl eq_refl Hro)
      as [(Hs & H1 & H2)|(Hs & H1 & H2 & H3)].
    + right; left. exists d. cbn. auto.
    + right; right; left. exists d. cbn. auto 6.
  - destruct ((0 <=? idx) && (idx <? count))%bool; [|auto].
    unfold selectDrive.
    destruct (isReadOnly d) eqn:Hro; cbn [negb]; [auto|].
    destruct (Sel d s eq_refl eq_refl Hro)
      as [(Hs & H1 & H2)|(Hs & H1 & H2 & H3)].
    + right; left. exists d. cbn. auto.
    + right; right; left. exists d. cbn. auto 6.
  - auto.
  - destruct ((0 <? match model with
                     | Some rows => Z.of_nat (List.length rows)
                     | None => 0
                     end) && (currentIndex s =? -1))%bool; [|auto].
    pose proof (selectDefaultDrive_effect model s) as H.
    destruct (match model with Some rows => priorityPick rows | None => None end)
      as [i|].
    + destruct H as (rows & row & -> & Hi & Hn & He & ->).
      right; left. exists row. unfold eligible in He.
      apply andb_true_iff in He. destruct He as [Hs Hr].
      apply negb_true_iff in Hs. apply negb_true_iff in Hr.
      split; [eapply nth_error_In; eassumption|]. cbn. auto.
    + rewrite H. auto.
  - right; right; right. cbn. auto.
  - auto.
  - destruct checked, dw; cbn; auto.
  - auto.
  - cbn; auto.
  - destruct (filterChecked s); cbn; auto.
  - cbn; auto.
  - unfold conditionalNext.
    destruct (0 <=? currentIndex s); [destruct item as [it|]|];
      try destruct (isSystem it); cbn; auto.
  - cbn; auto.
Qed.

Lemma offeredFreely_more (seen more : list Drive) (dev : string) :
  offeredFreely seen dev -> offeredFreely (seen ++ more) dev.
Proof.
  intros (d & Hin & H). exists d. split; [apply in_or_app; auto | exact H].
Qed.

Lemma offeredSystem_more (seen more : list Drive) (dev : string) :
  offeredSystem seen dev -> offeredSystem (seen ++ more) dev.
Proof.
  intros (d & Hin & H). exists d. split; [apply in_or_app; auto | exact H].
Qed.

Lemma handle_keeps_sanctioned
  (s0 : StorageStep) (seen : list Drive) (e : UiEvent) (s : StorageStep) :
  destinationsSanctioned s0 seen s ->
  destinationsSanctioned s0 (seen ++ drivesOf e) (handle formatSize e s).
Proof.
  intros [Hdst Hdlg].
  assert (Hdst' : forall dev more opened,
    In dev (setDstCalls s) ->
    In dev (setDstCalls s0)
    \/ offeredFreely (seen ++ more) dev
    \/ dev = confirmDevice (systemDriveConfirm s0)
    \/ (offeredSystem (seen ++ more) dev
        /\ In dev (confirmOpened (systemDriveConfirm s) ++ opened)%list)).
  { intros dev more opened Hin.
    destruct (Hdst dev Hin) as [H|[H|[H|[H1 H2]]]]; auto.
    - right; left. now apply offeredFreely_more.
    - right; right; right. split; [now apply offeredSystem_more|].
      apply in_or_app; auto. }
  assert (Hdlg' : forall more opened,
    confirmDevice (systemDriveConfirm s) = confirmDevice (systemDriveConfirm s0)
    \/ (offeredSystem (seen ++ more) (confirmDevice (systemDriveConfirm s))
        /\ In (confirmDevice (systemDriveConfirm s))
             (confirmOpened (systemDriveConfirm s) ++ opened)%list)).
  { intros more opened. destruct Hdlg as [H|[H1 H2]]; auto.
    right. split; [now apply offeredSystem_more|]. apply in_or_app; auto. }
  destruct (handle_outcome e s)
    as [(H1 & H2)|[(d & Hin & Hro & Hsys & H1 & H2)
                  |[(d & Hin & Hro & Hsys & H1 & H2 & H3)|(He & H1 & H2)]]];
    unfold destinationsSanctioned; rewrite H1, ?H2, ?H3.
  - split.
    + intros dev Hd. rewrite <- (app_nil_r (confirmOpened _)). now apply Hdst'.
    + rewrite <- (app_nil_r (confirmOpened _)). apply Hdlg'.
  - split.
    + intros dev Hd. apply in_app_or in Hd. destruct Hd as [Hd|[<-|[]]].
      * rewrite <- (app_nil_r (confirmOpened _)). now apply Hdst'.
      * right; left. exists d. split; [apply in_or_app; auto|auto].
    + rewrite <- (app_nil_r (confirmOpened _)). apply Hdlg'.
  - split.
    + intros dev Hd. now apply Hdst'.
    + right. split.
      * exists d. split; [apply in_or_app; auto|auto].
      * apply in_or_app. right. now left.
  - split.
    + intros dev Hd. apply in_app_or in Hd. destruct Hd as [Hd|[<-|[]]].
      * rewrite <- (app_nil_r (confirmOpened _)). now apply Hdst'.
      * right; right. rewrite <- (app_nil_r (confirmOpened _)). apply Hdlg'.
    + rewrite <- (app_nil_r (confirmOpened _)). apply Hdlg'.
Qed.

Lemma handleAll_keeps_sanctioned
  (s0 : StorageStep) (events : list UiEvent) (seen : list Drive) (s : StorageStep) :
  destinationsSanctioned s0 seen s ->
  destinationsSanctioned s0 (seen ++ flat_map drivesOf events)
    (handleAll formatSize events s).
Proof.
  revert seen s. induction events as [|e rest IH]; intros seen s H.
  - cbn. now rewrite app_nil_r.
  - cbn [handleAll fold_left flat_map]. rewrite app_assoc.
    apply IH. now apply handle_keeps_sanctioned.
Qed.

(** X14. Whatever sequence of events the step handles (clicks and keyboard
    selections of drives, changes of the drive list, answers of the two
    dialogs, toggles of the filter), every device it passes to [setDst] is
    the device of a drive it was shown as neither read-only nor a system
    drive, or is the device held by the confirmation dialog: the one it held
    at the start, or that of a system drive, not read-only, for which the
    dialog was opened.  So no drive shown only as read-only is made the
    destination, and a system drive only through the dialog. *)
Theorem destinations_are_sanctioned :
  forall (events : list UiEvent) (s0 : StorageStep) (dev : string),
    let s := handleAll formatSize events s0 in
    let seen := flat_map drivesOf events in
    In dev (setDstCalls s) ->
    In dev (setDstCalls s0)
    \/ offeredFreely seen dev
    \/ dev = confirmDevice (systemDriveConfirm s0)
    \/ (offeredSystem seen dev
        /\ In dev (confirmOpened (systemDriveConfirm s))).
Proof.
  intros events s0 dev s seen.
  assert (H0 : destinationsSanctioned s0 [] s0).
  { split; auto. }
  exact (proj1 (handleAll_keeps_sanctioned s0 events [] s0 H0) dev).
Qed.

End Destinations.

(** X14, on a step that is shown a system drive and a USB stick, where the
    user clicks the system drive and confirms. *)
Lemma destinations_are_sanctioned_witness :
  let sda := {| device := "/dev/sda"; description := "Internal disk"; size := "512";
                isUsb := false; isScsi := true; isReadOnly := false;
                isSystem := true; mountpoints := ["/"] |} in
  let sdb := {| device := "/dev/sdb"; description := "USB stick"; size := "16";
                isUsb := true; isScsi := false; isReadOnly := false;
                isSystem := false; mountpoints := [] |} in
  let s0 := {| currentIndex := -1; setDstCalls := []; selectedDeviceName := "";
               selectedStorageName := ""; nextButtonEnabled := false;
               nextButtonBound := true; filterChecked := true;
               systemDriveConfirm :=
                 {| driveName := ""; confirmDevice := ""; sizeStr := "";
                    confirmMountpoints := []; confirmOpened := [] |};
               unfilterOpened := 0; focusCalls := []; nextCalls := 0 |} in
  let events := [CountChanged (Some [sda; sdb]);
                 FilterToggled false true;
                 ItemClicked sda 0;
                 SystemDriveConfirmed] in
  setDstCalls (handleAll (fun size => size) events s0) = ["/dev/sdb"; "/dev/sda"]
  /\ (In "/dev/sda" (setDstCalls s0)
      \/ offeredFreely (flat_map drivesOf events) "/dev/sda"
      \/ "/dev/sda" = confirmDevice (systemDriveConfirm s0)
      \/ (offeredSystem (flat_map drivesOf events) "/dev/sda"
          /\ In "/dev/sda"
               (confirmOpened
                  (systemDriveConfirm (handleAll (fun size => size) events s0))))).
Proof.
  intros sda sdb s0 events. split; [reflexivity|].
  apply (destinations_are_sanctioned (fun size => size) events s0 "/dev/sda").
  cbn. auto.
Defined.

(** ** Network reachability *)

Lemma land_single_bit (flags : Z) (i : Z) :
  0 <= i -> (Z.land flags (2 ^ i) =? 0) = negb (Z.testbit flags i).
Proof.
  intros Hi. destruct (Z.testbit flags i) eqn:Hb; cbn [negb].
  - apply Z.eqb_neq. intros H.
    assert (Hb' : Z.testbit (Z.land flags (2 ^ i)) i = true).
    { rewrite Z.land_spec, Hb, Z.pow2_bits_true by lia. reflexivity. }
    rewrite H, Z.bits_0 in Hb'. discriminate.
  - apply Z.eqb_eq. apply Z.bits_inj'. intros n Hn.
    rewrite Z.land_spec, Z.bits_0.
    destruct (Z.eq_dec n i) as [->|Hne].
    + now rewrite Hb.
    + rewrite (Z.pow2_bits_false i n) by lia. apply andb_false_r.
Qed.

(** X15. With each of the two masks a single bit, [hasNetworkConnectivity]
    answers true exactly when a reachability reference could be created, its
    flags could be read, the bit of reachability is set and the bit of a
    required connection is clear; no other bit of the flags matters.  It
    releases the reference exactly once on every path that created one, and
    releases nothing when none was created.  [isNetworkReady] answers and
    does the same. *)
Theorem hasNetworkConnectivity_reads_two_bits :
  forall (reachableBit requiredBit : Z) (net : Reachability) (refs : References),
    0 <= reachableBit -> 0 <= requiredBit ->
    let r := hasNetworkConnectivity (2 ^ reachableBit) (2 ^ requiredBit) net refs in
    fst r
    = (SCNetworkReachabilityCreateWithName net
       && match SCNetworkReachabilityGetFlags net with
          | Some flags =>
              Z.testbit flags reachableBit && negb (Z.testbit flags requiredBit)
          | None => false
          end)%bool
    /\ (created (snd r) - created refs = released (snd r) - released refs)%nat
    /\ (created (snd r) - created refs
        = if SCNetworkReachabilityCreateWithName net then 1 else 0)%nat
    /\ isNetworkReady (2 ^ reachableBit) (2 ^ requiredBit) net refs = r.
Proof.
  intros i j net refs Hi Hj. cbn zeta. unfold isNetworkReady, hasNetworkConnectivity.
  destruct (SCNetworkReachabilityCreateWithName net); cbn [negb andb].
  - destruct (SCNetworkReachabilityGetFlags net) as [flags|]; cbn [fst snd created released].
    + rewrite !land_single_bit by assumption. rewrite !negb_involutive.
      repeat split; lia.
    + repeat split; lia.
  - cbn. repeat split; lia.
Qed.

(** X15, with the framework's bits 1 and 2 and the flags of a host that is
    reachable over a transient connection. *)
Lemma hasNetworkConnectivity_reads_two_bits_witness :
  hasNetworkConnectivity 2 4
    {| SCNetworkReachabilityCreateWithName := true;
       SCNetworkReachabilityGetFlags := Some 3 |}
    {| created := 0; released := 0 |}
  = (true, {| created := 1; released := 1 |})
  /\ fst (hasNetworkConnectivity 2 4
            {| SCNetworkReachabilityCreateWithName := true;
               SCNetworkReachabilityGetFlags := Some 3 |}
            {| created := 0; released := 0 |})
     = (true && (Z.testbit 3 1 && negb (Z.testbit 3 2)))%bool.
Proof.
  split; [reflexivity|].
  exact (proj1 (hasNetworkConnectivity_reads_two_bits 1 2
    {| SCNetworkReachabilityCreateWithName := true;
       SCNetworkReachabilityGetFlags := Some 3 |}
    {| created := 0; released := 0 |} ltac:(lia) ltac:(lia))).
Defined.

(** ** The filter, the Next button and the time interval *)

Section StepInvariants.

Context (formatSize : string -> string).




End StepInvariants.

(** X18. The time interval is one of three values, 3000 ms, the default
    and 7000 ms, and, unlike the byte interval, it never decreases as the
    total grows, provided the thresholds are ordered and the default lies
    between 3000 and 7000. *)
Theorem syncIntervalMs_grows_with_total :
  forall (K : PolicyConstants) (T1 T2 : Z),
    LOW_MEMORY_THRESHOLD_MB K <= HIGH_MEMORY_THRESHOLD_MB K ->
    3000 <= DEFAULT_SYNC_INTERVAL_MS K <= 7000 ->
    T1 <= T2 ->
    let ms := fun T => syncIntervalMs (syncConfigurationFor K T) in
    ms T1 <= ms T2
    /\ (ms T1 = 3000 \/ ms T1 = DEFAULT_SYNC_INTERVAL_MS K \/ ms T1 = 7000).
Proof.
  intros K T1 T2 Hord Hdef HT. cbn zeta. unfold syncConfigurationFor.
  destruct (Z.ltb_spec T1 (LOW_MEMORY_THRESHOLD_MB K));
    destruct (Z.ltb_spec T2 (LOW_MEMORY_THRESHOLD_MB K));
    destruct (Z.ltb_spec T1 (HIGH_MEMORY_THRESHOLD_MB K));
    destruct (Z.ltb_spec T2 (HIGH_MEMORY_THRESHOLD_MB K));
    cbn [syncIntervalMs]; split; auto; lia.
Qed.

(** X18, at the example constants: 2 GiB and 64 GiB. *)
Lemma syncIntervalMs_grows_with_total_witness :
  syncIntervalMs (syncConfigurationFor exampleConstants 2048)
  <= syncIntervalMs (syncConfigurationFor exampleConstants 65536).
Proof.
  exact (proj1 (syncIntervalMs_grows_with_total exampleConstants 2048 65536
                  ltac:(cbn; lia) ltac:(cbn; lia) ltac:(lia))).
Defined.

(** ** Stores to the cache *)

Lemma stores_settled
  (K : PolicyConstants) (platform : Platform) (os : nat -> System)
  (calls : list Call) (p : Process) :
  _cachedTotalMemoryMB p <> -1 ->
  cacheStores (processAfter K platform os calls p) = cacheStores p.
Proof.
  revert p. induction calls as [|c rest IH]; intros p H; [reflexivity|].
  rewrite performAll_cons, (perform_settled K platform os c p H). cbn [snd].
  destruct (isCalculate c); rewrite IH by exact H; reflexivity.
Qed.

Lemma stores_untouched
  (K : PolicyConstants) (platform : Platform) (os : nat -> System)
  (calls : list Call) (p : Process) :
  _cachedTotalMemoryMB p = -1 -> probesSoFar p = 0%nat ->
  cacheStores (processAfter K platform os calls p)
  = (cacheStores p
     ++ if existsb needsTotal calls
        then storesFor (getPlatformTotalMemoryMB platform (os 0%nat))
        else [])%list.
Proof.
  revert p. induction calls as [|c rest IH]; intros p Hc Hp.
  - cbn. now rewrite app_nil_r.
  - rewrite performAll_cons. cbn [existsb].
    destruct (needsTotal c) eqn:Hn.
    + rewrite (perform_untouched K platform os c p Hc Hp Hn). cbn [snd orb].
      rewrite stores_settled; [reflexivity|].
      cbn. pose proof (cachedFor_positive
        (getPlatformTotalMemoryMB platform (os 0%nat))). lia.
    + destruct c; try discriminate.
      cbn [perform ret snd orb]. now apply IH.
Qed.

(** C5, as the claim states it, fails: on a platform without a probe, the
    first call of [getTotalMemoryMB] assigns the member twice, first the
    probe's answer 0 and then 4096, not once. *)
Lemma cache_stored_twice_when_detection_fails :
  let first := getTotalMemoryMB Unknown (fun _ => nothingWorks) processStart in
  fst first = 4096
  /\ cacheStores (snd first) = [0; 4096]
  /\ List.length (cacheStores (snd first)) <> 1%nat.
Proof.
  cbn. repeat split. discriminate.
Qed.

(** C5, amended.  The cache starts absent with no probe and no store made;
    however many calls of whatever public operation a process makes, the
    total-memory probe has been invoked at most once, and the member has been
    assigned only by the first call that needed the total: once, the
    detected total, when that is positive, and twice, the probe's answer and
    then 4096, when it is not.  A call of [getTotalMemoryMB] made at any time
    returns the value derived from the platform's first answer (the detected
    total, or 4096) and leaves exactly one probe made; a run of calls of
    [getTotalMemoryMB] gets the same value each time; and after a call of
    [getTotalMemoryMB] in any state, no later call assigns the member,
    changes the cache or probes again. *)
Theorem platform_probe_at_most_once :
  forall (K : PolicyConstants) (platform : Platform) (os : nat -> System),
    let detected := getPlatformTotalMemoryMB platform (os 0%nat) in
    let first := cachedFor detected in
    (_cachedTotalMemoryMB processStart = CACHE_ABSENT
     /\ totalProbes processStart = 0%nat
     /\ cacheStores processStart = [])
    /\ (forall calls : list Call,
          (totalProbes (processAfter K platform os calls processStart) <= 1)%nat)
    /\ (forall calls : list Call,
          cacheStores (processAfter K platform os calls processStart)
          = if existsb needsTotal calls
            then (if detected <=? 0 then [detected; 4096] else [detected])
            else [])
    /\ (forall calls : list Call,
          let r := getTotalMemoryMB platform os
                     (processAfter K platform os calls processStart) in
          fst r = first
          /\ _cachedTotalMemoryMB (snd r) = first
          /\ totalProbes (snd r) = 1%nat
          /\ cacheStores (snd r)
             = if detected <=? 0 then [detected; 4096] else [detected])
    /\ (forall n : nat,
          let r := performAll K platform os (repeat GetTotalMemoryMB (S n)) processStart in
          fst r = repeat (Megabytes first) (S n)
          /\ totalProbes (snd r) = 1%nat)
    /\ (forall (p : Process) (calls : list Call),
          let r := getTotalMemoryMB platform os p in
          let later := processAfter K platform os calls (snd r) in
          _cachedTotalMemoryMB later = fst r
          /\ totalProbes later = totalProbes (snd r)
          /\ cacheStores later = cacheStores (snd r)
          /\ getTotalMemoryMB platform os later = (fst r, later)).
Proof.
  intros K platform os detected first.
  assert (Hpos : cachedFor detected <> -1).
  { pose proof (cachedFor_positive detected). lia. }
  split; [repeat split; reflexivity|].
  split.
  { intros calls.
    destruct (processAfter_untouched_or_settled K platform os calls)
      as [(_ & Ht & _)|(_ & Ht & _)]; rewrite Ht; lia. }
  split.
  { intros calls.
    rewrite (stores_untouched K platform os calls processStart eq_refl eq_refl).
    reflexivity. }
  split.
  { intros calls. cbn zeta.
    assert (E : snd (getTotalMemoryMB platform os
                       (processAfter K platform os calls processStart))
                = processAfter K platform os (calls ++ [GetTotalMemoryMB])
                    processStart).
    { generalize processStart. induction calls as [|c rest IH]; intros p.
      - unfold processAfter. cbn [app performAll perform ret snd]. unfold bind.
        destruct (getTotalMemoryMB platform os p). reflexivity.
      - cbn [app]. rewrite !performAll_cons. apply IH. }
    destruct (getTotalMemoryMB_from_start K platform os calls) as (H1 & H2 & H3).
    repeat split; try assumption.
    rewrite E, (stores_untouched K platform os _ processStart eq_refl eq_refl).
    rewrite existsb_app. cbn [existsb needsTotal]. rewrite !orb_true_r.
    reflexivity. }
  split.
  { intros n.
    assert (E : performAll K platform os (repeat GetTotalMemoryMB (S n)) processStart
                = (repeat (Megabytes first) (S n),
                   snd (getTotalMemoryMB platform os processStart))).
    { cbn [repeat performAll perform]. unfold bind at 1 2.
      rewrite (getTotalMemoryMB_absent platform os processStart eq_refl).
      cbn [ret probesSoFar processStart totalProbes availableProbes Nat.add].
      unfold bind at 1.
      rewrite performAll_repeat_cached; [reflexivity | exact Hpos]. }
    cbn zeta. rewrite E.
    rewrite (getTotalMemoryMB_absent platform os processStart eq_refl).
    split; reflexivity. }
  intros p calls.
  destruct (getTotalMemoryMB_fills platform os p) as [Hc Hn].
  cbn zeta.
  assert (Hn' : _cachedTotalMemoryMB (snd (getTotalMemoryMB platform os p)) <> -1)
    by now rewrite Hc.
  destruct (processAfter_cached K platform os calls _ Hn') as (Hc' & Ht' & _).
  rewrite Hc in Hc'.
  repeat split; try assumption.
  - now apply stores_settled.
  - rewrite getTotalMemoryMB_cached; [now rewrite Hc'|].
    now rewrite Hc'.
Qed.

(** ** The available-memory query and the policy *)




